(** * scapy/supersocket.py: the SuperSocket family

    A shallow embedding of [SuperSocket.close], [L3RawSocket.recv],
    [L3RawSocket.send], [StreamSocket.recv] and [SSLStreamSocket.recv].

    Python statements that touch a socket, the logger or an attribute of
    [self] become computations in a state-and-exception monad; the state is
    the part of the world the method can see.  Packets, packet classes and
    the [conf] object live in other modules of scapy (scapy.packet,
    scapy.config): they are modelled here by what supersocket.py uses of
    them. *)

From stdpp Require Import gmap strings list.
From Stdlib Require Import ZArith Lia.

Open Scope Z_scope.

(** ** Python values shared by every method *)

Abbreviation bytes := (list Byte.byte).

(** [len(s)] of a Python string, as a Python int. *)
Definition len (s : bytes) : Z := Z.of_nat (length s).

(** The exception classes that supersocket.py raises, catches or lets
    through. [OtherError] stands for any class that no [except] clause of the
    file names. *)
Inductive exn : Type :=
| SocketError (args : Z * string)     (* socket.error *)
| KeyboardInterrupt
| AttributeError (attr : string)
| ValueError (msg : string)
| OtherError (cls : string).

Inductive outcome (A : Type) : Type :=
| Return (a : A)
| Raise (e : exn).
Arguments Return {A} a.
Arguments Raise {A} e.

(** A statement run in state [S]: its outcome and the state it leaves. The
    state survives a raise: what was done before the exception stays done. *)
Definition M (S A : Type) : Type := S -> outcome A * S.

Definition ret {S A} (a : A) : M S A := fun s => (Return a, s).
Definition raise {S A} (e : exn) : M S A := fun s => (Raise e, s).
Definition bind {S A B} (m : M S A) (k : A -> M S B) : M S B :=
  fun s => match m s with
           | (Return a, s') => k a s'
           | (Raise e, s') => (Raise e, s')
           end.
Definition get {S} : M S S := fun s => (Return s, s).
Definition modify {S} (f : S -> S) : M S unit := fun s => (Return tt, f s).
Definition lift {S A} (o : outcome A) : M S A := fun s => (o, s).

(** [try: body except <classes>: handler]: [catches e] says whether the
    clause matches the exception. *)
Definition try_except {S A} (body : M S A) (catches : exn -> bool)
    (handler : exn -> M S A) : M S A :=
  fun s => match body s with
           | (Return a, s') => (Return a, s')
           | (Raise e, s') => if catches e then handler e s' else (Raise e, s')
           end.

Declare Scope py_scope.
Delimit Scope py_scope with py.
Notation "'let!' x ':=' m 'in' k" := (bind m (fun x => k))
  (at level 10, x pattern, m at level 100, k at level 200) : py_scope.
Notation "m ;; k" := (bind m (fun _ => k))
  (at level 100, k at level 200, right associativity) : py_scope.
Open Scope py_scope.

(** ** Packets (scapy.packet)

    Modelled from the spec: the Packet class is not in supersocket.py.  A
    frame is an ordered chain of nested layers ending in a terminal layer
    ([NoPayload]); every layer knows its class and the bytes it holds
    ([load]); [payload] is the rest of the chain. *)
Inductive Packet : Type :=
| NoPayload
| Layer (cls : string) (load : bytes) (payload : Packet).

(** [pkt.payload] *)
Definition payload (p : Packet) : Packet :=
  match p with
  | NoPayload => NoPayload
  | Layer _ _ pl => pl
  end.

(** The bytes of a frame, layer after layer, and [len(pkt)]. *)
Fixpoint wire (p : Packet) : bytes :=
  match p with
  | NoPayload => []
  | Layer _ l pl => l ++ wire pl
  end.
Definition plen (p : Packet) : Z := len (wire p).

(** Truth value of a packet: [NoPayload] is false, any layer is true. *)
Definition truthy (p : Packet) : bool :=
  match p with
  | NoPayload => false
  | Layer _ _ _ => true
  end.

(** A reference to a layer inside a frame: the layers above it, innermost
    first, and the chain that starts at it.  [underlayer] is the parent. *)
Record layer_ref : Type := LayerRef {
  above : list (string * bytes);
  here : Packet
}.

Definition underlayer (r : layer_ref) : option (string * bytes) := head (above r).

(** Put the layers above a reference back on top of a chain. *)
Fixpoint rebuild (up : list (string * bytes)) (p : Packet) : Packet :=
  match up with
  | [] => p
  | (c, l) :: up' => rebuild up' (Layer c l p)
  end.

(** [pkt.getlayer(cls)]: the first layer of that class, walking down the
    payload chain; [None] when the terminal layer is reached. *)
Fixpoint getlayer_from (up : list (string * bytes)) (p : Packet) (cls : string)
    : option layer_ref :=
  match p with
  | NoPayload => None
  | Layer c l pl =>
      if decide (c = cls) then Some (LayerRef up p)
      else getlayer_from ((c, l) :: up) pl cls
  end.
Definition getlayer (p : Packet) (cls : string) : option layer_ref :=
  getlayer_from [] p cls.

(** [del(pad.underlayer.payload)], seen from the root of the frame: the
    parent's payload becomes [NoPayload]. *)
Definition del_underlayer_payload (r : layer_ref) : Packet :=
  rebuild (above r) NoPayload.

(** A packet class: its name and what calling it on a string does. *)
Record PacketClass : Type := {
  name : string;
  dissect : bytes -> outcome Packet
}.

(** The part of [conf] that supersocket.py reads. *)
Record Conf : Type := {
  l2types : gmap Z PacketClass;
  l3types : gmap Z PacketClass;
  default_l2 : PacketClass;
  raw_layer : PacketClass;
  padding_layer : string;
  debug_dissector : bool
}.

(** ** The padding walk shared by both stream sockets

<<
    while pad is not None and not isinstance(pad, NoPayload):
        x -= len(pad.load)
        pad = pad.payload
>> *)
Fixpoint pad_walk (x : Z) (pad : Packet) : Z :=
  match pad with
  | NoPayload => x
  | Layer _ l pl => pad_walk (x - len l) pl
  end.

(** Lines 134-140 and 169-175: find the padding, detach it from its parent
    when it has one, and subtract the padding chain from [x].  Gives the
    frame as [pkt] names it afterwards and the final [x]. *)
Definition strip_padding (conf : Conf) (pkt : Packet) (x : Z) : Packet * Z :=
  let pad := getlayer pkt (padding_layer conf) in
  let pkt' := match pad with
              | Some r => match underlayer r with
                          | Some _ => del_underlayer_payload r
                          | None => pkt
                          end
              | None => pkt
              end in
  let x' := match pad with
            | Some r => pad_walk x (here r)
            | None => x
            end in
  (pkt', x').

(** Total byte length P of the padding chain of a decoded frame. *)
Definition padding_length (conf : Conf) (pkt : Packet) : Z :=
  match getlayer pkt (padding_layer conf) with
  | Some r => plen (here r)
  | None => 0
  end.

(** Python's [s[x:]] for any integer [x]: a negative index counts from the
    end, and both ends are clipped to the string. *)
Definition slice_from (s : bytes) (x : Z) : bytes :=
  let start := if x <? 0 then Z.max (x + len s) 0 else Z.min x (len s) in
  drop (Z.to_nat start) s.

(** ** A stream socket, as the stream sockets see it

    [rxq] holds the bytes the kernel has queued and the program has not
    consumed; [inflight] holds, in arrival order, the segments that will
    still come in, one entry per call of [recv] (an empty entry: nothing new
    came in since the previous call).  After the last segment the peer has
    closed. *)
Record stream : Type := Stream {
  rxq : bytes;
  inflight : list bytes
}.

(** A blocking read with an empty queue waits for the next segments. *)
Fixpoint block_until_data (q : bytes) (segs : list bytes) : bytes * list bytes :=
  match q, segs with
  | [], seg :: segs' => block_until_data seg segs'
  | _, _ => (q, segs)
  end.

Definition arrive (c : stream) : stream :=
  let '(q, segs) := match inflight c with
                    | [] => (rxq c, [])
                    | seg :: segs => (rxq c ++ seg, segs)
                    end in
  let '(q', segs') := block_until_data q segs in
  Stream q' segs'.

(** Every byte the socket has not handed out yet. *)
Definition pending (c : stream) : bytes := rxq c ++ concat (inflight c).

Inductive recv_flags : Type := NoFlags | MSG_PEEK.

(** [sock.recv(n, flags)]: up to [n] of the queued bytes; with [MSG_PEEK]
    they stay queued.  An empty string means the peer has closed. *)
Definition sock_recv (n : Z) (flags : recv_flags) : M stream bytes :=
  fun c =>
    if n <? 0 then (Raise (ValueError "negative buffersize in recv"), c)
    else
      let c1 := arrive c in
      let data := take (Z.to_nat n) (rxq c1) in
      (Return data,
       match flags with
       | MSG_PEEK => c1
       | NoFlags => Stream (drop (Z.to_nat n) (rxq c1)) (inflight c1)
       end).

Definition torn_down : exn :=
  SocketError (100, "Underlying stream socket tore down"%string).

(** ** class SuperSocket: [close] *)
Module SuperSocket.

(** What the attribute [ins] or [outs] of a handle evaluates to: it may
    never have been assigned (the constructor raised before the
    assignment), it may be [None] ([L2ListenTcpdump] sets [outs = None]),
    or it names a channel object. *)
Inductive attr : Type :=
| Unbound
| PyNone
| Ref (id : nat).

#[global] Instance attr_eq_dec : EqDecision attr.
Proof. solve_decision. Defined.

Record handle : Type := Handle {
  closed : bool;
  ins : attr;
  outs : attr
}.

(** The channel objects.  [fileno_of id] is what [fileno()] of the channel
    does now: it answers a descriptor, or, for a channel that is closed,
    what that kind of channel does then ([fileno_closed id]): a closed
    Python 3 socket answers [-1], a closed Python 2 socket raises
    [socket.error(EBADF)], a closed file raises [ValueError].
    [close_calls] lists, oldest first, the channels on which [close()] was
    invoked. *)
Record world : Type := World {
  self : handle;
  fileno_of : nat -> outcome Z;
  fileno_closed : nat -> outcome Z;
  close_calls : list nat
}.

Definition getattr_ins : M world attr :=
  fun w => match ins (self w) with
           | Unbound => (Raise (AttributeError "ins"), w)
           | v => (Return v, w)
           end.
Definition getattr_outs : M world attr :=
  fun w => match outs (self w) with
           | Unbound => (Raise (AttributeError "outs"), w)
           | v => (Return v, w)
           end.

(** [v.fileno()] and [v.close()] on whatever [v] is.  [fileno()] of a
    channel answers or raises as the channel has it; [close()] of a channel
    is recorded and returns, and from then on [fileno()] does what it does
    on a closed channel. *)
Definition call_fileno (v : attr) : M world Z :=
  match v with
  | Ref id => fun w => (fileno_of w id, w)
  | _ => raise (AttributeError "fileno")
  end.
Definition call_close (v : attr) : M world unit :=
  match v with
  | Ref id =>
      modify (fun w => World (self w)
                             (fun j => if decide (j = id) then fileno_closed w id
                                       else fileno_of w j)
                             (fileno_closed w)
                             (close_calls w ++ [id]))
  | _ => raise (AttributeError "close")
  end.

(** Truth value: [None] is false, a channel object is true. *)
Definition is_true (v : attr) : bool :=
  match v with
  | Ref _ => true
  | _ => false
  end.

Definition set_closed : M world unit :=
  modify (fun w => World (Handle true (ins (self w)) (outs (self w)))
                         (fileno_of w) (fileno_closed w) (close_calls w)).

(** Lines 44-52. *)
Definition close : M world unit :=
  let! w := get in
  if closed (self w) then ret tt
  else
    set_closed ;;
    let! i := getattr_ins in
    let! o := getattr_outs in
    (if decide (i <> o) then
       let! o := getattr_outs in
       let! live := (if is_true o then
                       let! o := getattr_outs in
                       let! fd := call_fileno o in
                       ret (negb (fd =? -1))
                     else ret false) in
       if live then
         let! o := getattr_outs in call_close o
       else ret tt
     else ret tt) ;;
    let! i := getattr_ins in
    let! live := (if is_true i then
                    let! i := getattr_ins in
                    let! fd := call_fileno i in
                    ret (negb (fd =? -1))
                  else ret false) in
    if live then
      let! i := getattr_ins in call_close i
    else ret tt.

(** [close()] invoked [n] times in a row; stops at the first exception. *)
Fixpoint close_times (n : nat) : M world unit :=
  match n with
  | O => ret tt
  | S n' => close ;; close_times n'
  end.

(** The frame handed to [send]: what [str(x)] does, and its [sent_time]
    attribute when it has one ([hasattr(x, "sent_time")]). *)
Record sendable : Type := Sendable {
  str : outcome bytes;
  sent_time : option Z
}.

(** The output side: the clock, how [outs.send] answers, and the strings it
    was called with, oldest first. *)
Record out_world : Type := OutWorld {
  clock : Z;
  outs_send : bytes -> outcome Z;
  sends : list bytes
}.

(** Lines 35-39; the state carries the frame [x]. *)
Definition send : M (out_world * sendable) Z :=
  let! (_, x) := get in
  let! sx := lift (str x) in
  (match sent_time x with
   | Some _ => modify (fun '(w, x) => (w, Sendable (str x) (Some (clock w))))
   | None => ret tt
   end) ;;
  let! (w, _) := get in
  modify (fun '(w, x) => (OutWorld (clock w) (outs_send w) (sends w ++ [sx]), x)) ;;
  lift (outs_send w sx).

(** Lines 40-41; the state is [self.ins]. *)
Definition recv (conf : Conf) (x : Z) : M stream Packet :=
  let! s := sock_recv x NoFlags in
  lift (dissect (raw_layer conf) s).

End SuperSocket.

(** ** class L3RawSocket *)
Module L3RawSocket.

(** The address [recvfrom] gives for a packet socket: [sa_ll[0]] is the
    interface name, [sa_ll[1]] the protocol, [sa_ll[2]] the packet type
    and [sa_ll[3]] the hardware (link) type. *)
Record sockaddr_ll : Type := SockaddrLL {
  sll_ifname : string;
  sll_protocol : Z;
  sll_pkttype : Z;
  sll_hatype : Z
}.

(** [socket.PACKET_OUTGOING] *)
Definition PACKET_OUTGOING : Z := 4.

(** What the method leaves behind besides its result: calls of a packet
    class, of [warning], of [log_runtime.error] and of [outs.sendto]. *)
Inductive event : Type :=
| Dissect (cls : string) (s : bytes)
| Warning (ifname : string) (protocol : Z) (family : Z) (chosen : string)
| LogError (msg : exn)
| Sendto (s : bytes) (addr : string * Z).

(** The frame handed to [send]: what [str(x)] does, its [dst] attribute if
    it has one, and its [sent_time] attribute. *)
Record sendable : Type := Sendable {
  str : outcome bytes;
  dst : option string;
  sent_time : option Z
}.

(** [rx] scripts the successive results of [ins.recvfrom]; an exhausted
    script answers like a socket with nothing to read.  [outs_sendto] is
    how the output socket answers a [sendto]. *)
Record world : Type := World {
  rx : list (outcome (bytes * sockaddr_ll));
  last_packet_timestamp : Z;
  clock : Z;
  outs_sendto : bytes -> string * Z -> outcome Z;
  log : list event
}.

(** The world with more events logged, and with another script for
    [recvfrom]. *)
Definition logged (w : world) (evs : list event) : world :=
  World (rx w) (last_packet_timestamp w) (clock w) (outs_sendto w) (log w ++ evs).
Definition with_rx (w : world) (script : list (outcome (bytes * sockaddr_ll)))
    : world :=
  World script (last_packet_timestamp w) (clock w) (outs_sendto w) (log w).

Definition emit (e : event) : M world unit :=
  modify (fun w => logged w [e]).

(** [self.ins.recvfrom(x)] *)
Definition ins_recvfrom (x : Z) : M world (bytes * sockaddr_ll) :=
  fun w =>
    if x <? 0 then (Raise (ValueError "negative buffersize in recvfrom"), w)
    else
      match rx w with
      | [] => (Raise (SocketError (11, "Resource temporarily unavailable"%string)), w)
      | r :: rest =>
          let w' := with_rx w rest in
          match r with
          | Return (pkt, sa_ll) => (Return (take (Z.to_nat x) pkt, sa_ll), w')
          | Raise e => (Raise e, w')
          end
      end.

(** [cls(pkt)]: one decode attempt. *)
Definition call (cls : PacketClass) (pkt : bytes) : M world Packet :=
  emit (Dissect (name cls) pkt) ;; lift (dissect cls pkt).

(** Lines 79-88: the class to decode with, and the level. *)
Definition dispatch (conf : Conf) (sa_ll : sockaddr_ll) : M world (PacketClass * Z) :=
  match l2types conf !! sll_hatype sa_ll with
  | Some cls => ret (cls, 2)
  | None =>
      match l3types conf !! sll_protocol sa_ll with
      | Some cls => ret (cls, 3)
      | None =>
          let cls := default_l2 conf in
          emit (Warning (sll_ifname sa_ll) (sll_protocol sa_ll)
                        (sll_hatype sa_ll) (name cls)) ;;
          ret (cls, 3)
      end
  end.

(** Lines 90-97: the guarded decode. *)
Definition decode (conf : Conf) (cls : PacketClass) (pkt : bytes) : M world Packet :=
  try_except (call cls pkt) (fun _ => true)
    (fun e => match e with
              | KeyboardInterrupt => raise e
              | _ => if debug_dissector conf then raise e
                     else call (raw_layer conf) pkt
              end).

(** Lines 75-104.  The result is [None] or the frame with the [time]
    attribute it was given. *)
Definition recv (conf : Conf) (x : Z) : M world (option (Packet * Z)) :=
  let! (pkt, sa_ll) := ins_recvfrom x in
  if sll_pkttype sa_ll =? PACKET_OUTGOING then ret None
  else
    let! (cls, lvl) := dispatch conf sa_ll in
    let! pkt := decode conf cls pkt in
    let pkt := if lvl =? 2 then payload pkt else pkt in
    let! w := get in
    ret (Some (pkt, last_packet_timestamp w)).

Definition is_socket_error (e : exn) : bool :=
  match e with
  | SocketError _ => true
  | _ => false
  end.

(** Lines 105-111; the state carries the frame [x], which the method
    mutates. *)
Definition send : M (world * sendable) unit :=
  try_except
    (let! (_, x) := get in
     let! sx := lift (str x) in
     modify (fun '(w, x) => (w, Sendable (str x) (dst x) (Some (clock w)))) ;;
     let! d := match dst x with
               | Some d => ret d
               | None => raise (AttributeError "dst")
               end in
     let! (w, _) := get in
     modify (fun '(w, x) => (logged w [Sendto sx (d, 0)], x)) ;;
     lift (outs_sendto w sx (d, 0)) ;;
     ret tt)
    is_socket_error
    (fun msg => modify (fun '(w, x) => (logged w [LogError msg], x))).

(** Lines 69-74.  [os] scripts the system calls the constructor makes, in
    order: [socket()], [setsockopt()], [socket()] and, when an interface is
    given, [bind()]; [Some e] makes that call raise [e].  The argument of
    the second [socket()], [socket.htons(type)], is evaluated before the
    call and may raise too. *)
Record under_construction : Type := UnderConstruction {
  obj : SuperSocket.handle;
  os : list (option exn);
  next_id : nat
}.

Definition syscall : M under_construction unit :=
  fun s => match os s with
           | Some e :: rest => (Raise e, UnderConstruction (obj s) rest (next_id s))
           | None :: rest => (Return tt, UnderConstruction (obj s) rest (next_id s))
           | [] => (Return tt, s)
           end.

Definition socket_socket : M under_construction SuperSocket.attr :=
  syscall ;;
  fun s => (Return (SuperSocket.Ref (next_id s)),
            UnderConstruction (obj s) (os s) (S (next_id s))).

(** The [type] argument as the caller passed it: an integer, or an object
    of another class. *)
Inductive pyarg : Type :=
| IntArg (z : Z)
| NonInt (cls : string).

(** [scapy.data.ETH_P_IP], the default of [type]. *)
Definition ETH_P_IP : Z := 2048.

(** [socket.htons(type)]: the argument must be a C int that is not
    negative; the low 16 bits come back with their two bytes swapped, as on
    a little-endian host. *)
Definition htons (type : pyarg) : outcome Z :=
  match type with
  | IntArg z =>
      if (z <? 0) || (2147483647 <? z) then Raise (OtherError "OverflowError")
      else Return (Z.lor (Z.shiftl (Z.land z 255) 8) (Z.land (Z.shiftr z 8) 255))
  | NonInt _ => Raise (OtherError "TypeError")
  end.

Definition __init__ (type : pyarg) (iface : option string)
    : M under_construction unit :=
  let! o := socket_socket in
  modify (fun s => UnderConstruction
                     (SuperSocket.Handle (SuperSocket.closed (obj s))
                                         (SuperSocket.ins (obj s)) o)
                     (os s) (next_id s)) ;;
  syscall ;;
  let! proto := lift (htons type) in
  let! i := socket_socket in
  modify (fun s => UnderConstruction
                     (SuperSocket.Handle (SuperSocket.closed (obj s))
                                         i (SuperSocket.outs (obj s)))
                     (os s) (next_id s)) ;;
  match iface with
  | Some _ => syscall
  | None => ret tt
  end.

(** An instance before [__init__] has run: [closed] is the class
    attribute [0], [ins] and [outs] do not exist. *)
Definition fresh (script : list (option exn)) : under_construction :=
  UnderConstruction (SuperSocket.Handle false SuperSocket.Unbound SuperSocket.Unbound)
                    script 0.

End L3RawSocket.

(** ** class StreamSocket *)
Module StreamSocket.

(** Lines 128-142.  The state is [self.ins]. *)
Definition recv (conf : Conf) (basecls : PacketClass) (x : Z) : M stream Packet :=
  let! pkt := sock_recv x MSG_PEEK in
  let x := len pkt in
  if x =? 0 then raise torn_down
  else
    let! pkt := lift (dissect basecls pkt) in
    let '(pkt, x) := strip_padding conf pkt x in
    sock_recv x NoFlags ;;
    ret pkt.

(** [recv] called [n] times in a row, collecting the frames; stops at the
    first exception. *)
Fixpoint recv_times (conf : Conf) (basecls : PacketClass) (x : Z) (n : nat)
    : M stream (list Packet) :=
  match n with
  | O => ret []
  | S n' =>
      let! p := recv conf basecls x in
      let! ps := recv_times conf basecls x n' in
      ret (p :: ps)
  end.

End StreamSocket.

(** ** class SSLStreamSocket *)
Module SSLStreamSocket.

(** [self.ins], [self._buf], and the strings on which [self.basecls] has
    been called so far, oldest first. *)
Record state : Type := State {
  ins : stream;
  _buf : bytes;
  decoded : list bytes
}.

Definition ins_recv (x : Z) : M state bytes :=
  fun s => let '(r, c) := sock_recv x NoFlags (ins s) in
           (r, State c (_buf s) (decoded s)).

Definition call_basecls (basecls : PacketClass) (s : bytes) : M state Packet :=
  modify (fun st => State (ins st) (_buf st) (decoded st ++ [s])) ;;
  lift (dissect basecls s).

Definition set_buf (b : bytes) : M state unit :=
  modify (fun st => State (ins st) b (decoded st)).

(** Lines 152-177. *)
Definition recv (conf : Conf) (basecls : PacketClass) (x : Z) : M state Packet :=
  let! st := get in
  let! pkt :=
    (if decide (_buf st <> []) then
       try_except
         (let! p := call_basecls basecls (_buf st) in ret (Some p))
         (fun _ => true)
         (fun _ => ret None)
     else ret None) in
  (if negb (match pkt with Some p => truthy p | None => false end) then
     let! buf := ins_recv x in
     if len buf =? 0 then raise torn_down
     else
       let! st := get in
       set_buf (_buf st ++ buf)
   else ret tt) ;;
  let! st := get in
  let x := len (_buf st) in
  let! pkt := call_basecls basecls (_buf st) in
  let '(pkt, x) := strip_padding conf pkt x in
  let! st := get in
  set_buf (slice_from (_buf st) x) ;;
  ret pkt.

(** [recv] called [n] times in a row, collecting the frames; stops at the
    first exception. *)
Fixpoint recv_times (conf : Conf) (basecls : PacketClass) (x : Z) (n : nat)
    : M state (list Packet) :=
  match n with
  | O => ret []
  | S n' =>
      let! p := recv conf basecls x in
      let! ps := recv_times conf basecls x n' in
      ret (p :: ps)
  end.

(** [recv] called [n] times by a caller that catches every exception and
    calls again: the state after the last call. *)
Fixpoint attempts (conf : Conf) (basecls : PacketClass) (x : Z) (n : nat)
    (st : state) : state :=
  match n with
  | O => st
  | S n' => attempts conf basecls x n' (snd (recv conf basecls x st))
  end.

End SSLStreamSocket.


(** ** Vocabulary of the statements *)

(** Lines 153-161 of [SSLStreamSocket.recv]: whether the buffer already
    decodes to a (true) frame, in which case the method does not read. *)
Definition buffered_frame (basecls : PacketClass) (buf : bytes) : bool :=
  if decide (buf <> []) then
    match dissect basecls buf with
    | Return p => truthy p
    | Raise _ => false
    end
  else false.

(** The strings the first, guarded decode adds to the log. *)
Definition first_attempt (buf : bytes) : list bytes :=
  if decide (buf <> []) then [buf] else [].

(** The two ways [SSLStreamSocket.recv] reaches its second decode with the
    buffer [B]: the old buffer already held a frame, or it did not and one
    read of [buf] was appended to it. *)
Definition decodes_buffer (basecls : PacketClass) (x : Z)
    (st : SSLStreamSocket.state) (B : bytes) : Prop :=
  (B = SSLStreamSocket._buf st /\ buffered_frame basecls B = true) \/
  (buffered_frame basecls (SSLStreamSocket._buf st) = false /\
   exists buf c1, sock_recv x NoFlags (SSLStreamSocket.ins st) = (Return buf, c1) /\
                  buf <> [] /\ B = SSLStreamSocket._buf st ++ buf).

(** The buffer [B] that was decoded splits into the bytes of the returned
    frame [p] followed by the bytes [B'] kept for the next call: no byte of
    the returned record stays behind, no byte of a later record is lost. *)
Definition splits_off (B : bytes) (p : Packet) (B' : bytes) : Prop :=
  B = wire p ++ B'.

(** A frame on the wire and the packet it stands for. *)
Record frame : Type := Frame {
  fwire : bytes;
  fpkt : Packet
}.

Definition wires (fs : list frame) : bytes := concat (map fwire fs).

(** [p] with the chain [q] in place of its terminal layer. *)
Fixpoint chain_app (p q : Packet) : Packet :=
  match p with
  | NoPayload => q
  | Layer c l pl => Layer c l (chain_app pl q)
  end.

(** A frame is well formed for a decoder when the decoder finds it at the
    front of any string: the frame itself, which has no padding layer,
    followed by the trailing bytes as padding (or by nothing when no byte
    trails). *)
Definition well_formed (conf : Conf) (basecls : PacketClass) (f : frame) : Prop :=
  fwire f <> [] /\
  truthy (fpkt f) = true /\
  getlayer (fpkt f) (padding_layer conf) = None /\
  forall r, exists pad,
    dissect basecls (fwire f ++ r) = Return (chain_app (fpkt f) pad) /\
    wire pad = r /\
    (pad = NoPayload \/ exists l pl, pad = Layer (padding_layer conf) l pl).

(** The length of the outermost header of a decoded frame. *)
Definition header_length (p : Packet) : Z :=
  match p with
  | NoPayload => 0
  | Layer _ l _ => len l
  end.

Definition is_warning (e : L3RawSocket.event) : bool :=
  match e with
  | L3RawSocket.Warning _ _ _ _ => true
  | _ => false
  end.

(** The number of calls of [warning] among some events. *)
Definition warnings (evs : list L3RawSocket.event) : nat :=
  length (List.filter is_warning evs).

(** A channel is live when its [fileno()] answers a descriptor other than
    [-1]. *)
Definition live (w : SuperSocket.world) (id : nat) : bool :=
  match SuperSocket.fileno_of w id with
  | Return fd => negb (fd =? -1)
  | Raise _ => false
  end.

(** The [fileno()] calls that [close()] makes on a handle do not raise:
    the one on [outs], made when [outs] is a channel and another object
    than [ins], and the one on [ins], made when [ins] is a channel. *)
Definition fileno_answers (w : SuperSocket.world) : Prop :=
  let h := SuperSocket.self w in
  (forall o, SuperSocket.outs h = SuperSocket.Ref o ->
             SuperSocket.ins h <> SuperSocket.Ref o ->
             exists fd, SuperSocket.fileno_of w o = Return fd) /\
  (forall i, SuperSocket.ins h = SuperSocket.Ref i ->
             exists fd, SuperSocket.fileno_of w i = Return fd).

(** The channels on which a first [close()] invokes [close()], in order:
    the output channel when it is another object than the input channel and
    is still live, then the input channel when it is still live; none when
    the handle is already closed. *)
Definition closes_expected (w : SuperSocket.world) : list nat :=
  let h := SuperSocket.self w in
  if SuperSocket.closed h then []
  else
    match SuperSocket.outs h with
    | SuperSocket.Ref o =>
        if decide (SuperSocket.ins h <> SuperSocket.Ref o /\ live w o = true)
        then [o] else []
    | _ => []
    end ++
    match SuperSocket.ins h with
    | SuperSocket.Ref i => if live w i then [i] else []
    | _ => []
    end.

(** A stream is aligned on the frames [fs] when its queue and each segment
    still to arrive hold whole frames, and together they hold [fs]. *)
Definition aligned (c : stream) (fs : list frame) : Prop :=
  exists q0 segs,
    rxq c = wires q0 /\ inflight c = map wires segs /\ fs = q0 ++ concat segs.

(** The layers walked through on the way down a chain, innermost first. *)
Fixpoint descend (up : list (string * bytes)) (p : Packet) : list (string * bytes) :=
  match p with
  | NoPayload => up
  | Layer c l pl => descend ((c, l) :: up) pl
  end.

(** ** Packet classes and configurations used to run the methods

    [Raw] and [Padding] are scapy's: each keeps the whole string as its
    load.  The other classes are small decoders on which the methods are
    evaluated. *)
Module Sample.

Definition b (n : nat) : Byte.byte := default Byte.x00 (Byte.of_nat n).

Definition Raw : PacketClass :=
  {| name := "Raw"; dissect s := Return (Layer "Raw" s NoPayload) |}.

Definition Padding : PacketClass :=
  {| name := "Padding"; dissect s := Return (Layer "Padding" s NoPayload) |}.

(** What is left after a layer: nothing, or a padding layer. *)
Definition trailing (rest : bytes) : Packet :=
  match rest with
  | [] => NoPayload
  | _ => Layer "Padding" rest NoPayload
  end.

(** A record with a one-byte length and that many bytes of body; a short
    body is taken as it is, the way scapy's length fields do. *)
Definition LenRecord : PacketClass :=
  {| name := "LenRecord";
     dissect s :=
       match s with
       | [] => Raise (OtherError "struct.error")
       | n :: body =>
           let k := Byte.to_nat n in
           Return (Layer "LenRecord" (n :: take k body) (trailing (drop k body)))
       end |}.

(** The same record, refusing a short body. *)
Definition StrictRecord : PacketClass :=
  {| name := "StrictRecord";
     dissect s :=
       match s with
       | [] => Raise (OtherError "struct.error")
       | n :: body =>
           let k := Byte.to_nat n in
           if (length body <? k)%nat then Raise (OtherError "struct.error")
           else Return (Layer "StrictRecord" (n :: take k body) (trailing (drop k body)))
       end |}.

(** A link layer with a two-byte header in front of a raw payload. *)
Definition Link2 : PacketClass :=
  {| name := "Link2";
     dissect s :=
       if (length s <? 2)%nat then Raise (OtherError "struct.error")
       else Return (Layer "Link2" (take 2 s) (Layer "Raw" (drop 2 s) NoPayload)) |}.

(** A class whose dissection is interrupted from the keyboard. *)
Definition Interrupted : PacketClass :=
  {| name := "Interrupted"; dissect _ := Raise KeyboardInterrupt |}.

Definition conf : Conf :=
  {| l2types := {[ 1 := Link2 ]};
     l3types := {[ 2048 := Raw ]};
     default_l2 := Link2;
     raw_layer := Raw;
     padding_layer := "Padding";
     debug_dissector := false |}.

(** [conf] with a link-layer class that gets interrupted. *)
Definition interrupted_conf : Conf :=
  {| l2types := {[ 1 := Interrupted ]};
     l3types := l3types conf;
     default_l2 := default_l2 conf;
     raw_layer := raw_layer conf;
     padding_layer := padding_layer conf;
     debug_dissector := false |}.

(** [conf] with [conf.debug_dissector] set. *)
Definition strict_conf : Conf :=
  {| l2types := l2types conf;
     l3types := l3types conf;
     default_l2 := default_l2 conf;
     raw_layer := raw_layer conf;
     padding_layer := padding_layer conf;
     debug_dissector := true |}.

(** A record of two body bytes, followed by two bytes of the next one. *)
Definition record_and_more : bytes := [b 2; b 10; b 11; b 2; b 12].
Definition record_decoded : Packet :=
  Layer "LenRecord" [b 2; b 10; b 11] (Layer "Padding" [b 2; b 12] NoPayload).

(** A packet socket with one captured frame to deliver. *)
Definition captured (pkt : bytes) (sa_ll : L3RawSocket.sockaddr_ll)
    : L3RawSocket.world :=
  L3RawSocket.World [Return (pkt, sa_ll)] 1700000000 1700000001
                    (fun s _ => Return (len s)) [].

(** Addresses of captured frames: an incoming frame of a registered link
    type, and one for which neither registry has a class. *)
Definition sa_link : L3RawSocket.sockaddr_ll := L3RawSocket.SockaddrLL "eth0" 2048 0 1.
Definition sa_unknown : L3RawSocket.sockaddr_ll := L3RawSocket.SockaddrLL "tun0" 9 0 7.
Definition five_bytes : bytes := [b 1; b 2; b 3; b 4; b 5].

(** A world whose output socket refuses to send, and a frame to send. *)
Definition refusing : L3RawSocket.world :=
  L3RawSocket.World [] 1700000000 1700000001
    (fun _ _ => Raise (SocketError (1, "Operation not permitted"%string))) [].
Definition ip_frame : L3RawSocket.sendable :=
  L3RawSocket.Sendable (Return [b 69; b 0; b 0; b 20]) (Some "10.0.0.1"%string) None.

(** A whole record as a frame, and a delivery that cuts it in two. *)
Definition frameA : frame :=
  Frame [b 2; b 10; b 11] (Layer "LenRecord" [b 2; b 10; b 11] NoPayload).
Definition cut_delivery : stream := Stream [] [[b 2; b 10]; [b 11]].

(** An SSL stream socket with an empty buffer and one segment to come. *)
Definition ssl_start (seg : bytes) : SSLStreamSocket.state :=
  SSLStreamSocket.State (Stream [] [seg]) [] [].

End Sample.

(** ** The constructors *)
Module Constructors.

(** [SuperSocket.__init__], lines 31-34: one [socket.socket] call, the
    scripted system call of [L3RawSocket.under_construction]; [outs] is the
    same object as [ins].  ([promisc] is never read in the file.) *)
Definition SuperSocket__init__ : M L3RawSocket.under_construction unit :=
  let! s := L3RawSocket.socket_socket in
  modify (fun st => L3RawSocket.UnderConstruction
                      (SuperSocket.Handle (SuperSocket.closed (L3RawSocket.obj st))
                                          s (SuperSocket.outs (L3RawSocket.obj st)))
                      (L3RawSocket.os st) (L3RawSocket.next_id st)) ;;
  modify (fun st => L3RawSocket.UnderConstruction
                      (SuperSocket.Handle (SuperSocket.closed (L3RawSocket.obj st))
                                          (SuperSocket.ins (L3RawSocket.obj st))
                                          (SuperSocket.ins (L3RawSocket.obj st)))
                      (L3RawSocket.os st) (L3RawSocket.next_id st)).

(** [SimpleSocket.__init__], lines 115-117. *)
Definition SimpleSocket__init__ (sock : SuperSocket.attr) (h : SuperSocket.handle)
    : SuperSocket.handle :=
  SuperSocket.Handle (SuperSocket.closed h) sock sock.

(** A stream socket object: the handle and [self.basecls]. *)
Record stream_socket : Type := StreamSocketObj {
  handle : SuperSocket.handle;
  basecls : PacketClass
}.

(** [StreamSocket.__init__], lines 122-126. *)
Definition StreamSocket__init__ (conf : Conf) (sock : SuperSocket.attr)
    (basecls : option PacketClass) (h : SuperSocket.handle) : stream_socket :=
  let basecls := match basecls with
                 | None => raw_layer conf
                 | Some b => b
                 end in
  StreamSocketObj (SimpleSocket__init__ sock h) basecls.

(** An instance before any [__init__] has run. *)
Definition blank : SuperSocket.handle :=
  SuperSocket.Handle false SuperSocket.Unbound SuperSocket.Unbound.

End Constructors.

(** ** class L2ListenTcpdump *)
Module L2ListenTcpdump.

Open Scope string_scope.

(** Truth values of the arguments: [promisc] is [None] or a boolean,
    [filter] is [None] or a string (the empty string is false). *)
Definition not_promisc (promisc : option bool) : bool :=
  match promisc with
  | Some true => false
  | _ => true
  end.
Definition nonempty (s : string) : bool :=
  match s with
  | EmptyString => false
  | _ => true
  end.

(** Lines 191-196: the filter after the exclusion filter of the
    configuration ([conf.except_filter]) has been taken into account. *)
Definition combined_filter (filter : option string) (nofilter : bool)
    (except_filter : string) : option string :=
  if negb nofilter then
    if nonempty except_filter then
      match filter with
      | Some f =>
          if nonempty f then Some ("(" ++ f ++ ") and not (" ++ except_filter ++ ")")
          else Some ("not (" ++ except_filter ++ ")")
      | None => Some ("not (" ++ except_filter ++ ")")
      end
    else filter
  else filter.

(** Lines 186-198: the arguments handed to [tcpdump]. *)
Definition tcpdump_args (iface : option string) (promisc : option bool)
    (filter : option string) (nofilter : bool) (except_filter : string)
    : list string :=
  let args := ["-w"; "-"; "-s"; "65535"] in
  let args := match iface with
              | Some i => (args ++ ["-i"; i])%list
              | None => args
              end in
  let args := if not_promisc promisc then (args ++ ["-p"])%list else args in
  let filter := combined_filter filter nofilter except_filter in
  match filter with
  | Some f => (args ++ [f])%list
  | None => args
  end.

End L2ListenTcpdump.

(** The second record of a straddling delivery, the frames of the strict
    decoder, and a decoder that refuses everything. *)
Module Sample2.

Definition strictA : frame :=
  Frame [Sample.b 2; Sample.b 10; Sample.b 11]
        (Layer "StrictRecord" [Sample.b 2; Sample.b 10; Sample.b 11] NoPayload).
Definition strictB : frame :=
  Frame [Sample.b 3; Sample.b 12; Sample.b 13; Sample.b 14]
        (Layer "StrictRecord" [Sample.b 3; Sample.b 12; Sample.b 13; Sample.b 14]
               NoPayload).

Definition Refusing : PacketClass :=
  {| name := "Refusing"; dissect _ := Raise (OtherError "struct.error") |}.

Definition string_frame : SuperSocket.sendable :=
  SuperSocket.Sendable (Return [Sample.b 71; Sample.b 69; Sample.b 84]) None.

Definition out_ok : SuperSocket.out_world :=
  SuperSocket.OutWorld 1700000001 (fun s => Return (len s)) [].

End Sample2.

(** * Properties *)

(** ** The monad *)

Lemma bind_Return {S A B} (m : M S A) (k : A -> M S B) s a s' :
  m s = (Return a, s') -> bind m k s = k a s'.
Proof. intros H. unfold bind. now rewrite H. Qed.


(** ** Packets and padding *)

Lemma len_nonneg s : 0 <= len s.
Proof. unfold len. lia. Qed.

Lemma len_app s t : len (s ++ t) = len s + len t.
Proof. unfold len. rewrite length_app. lia. Qed.

Lemma len_nil_iff s : len s = 0 <-> s = [].
Proof.
  unfold len. split.
  - destruct s; [easy | simpl; lia].
  - now intros ->.
Qed.

Lemma plen_nonneg p : 0 <= plen p.
Proof. apply len_nonneg. Qed.

Lemma pad_walk_plen p : forall x, pad_walk x p = x - plen p.
Proof.
  induction p as [| c l pl IH]; intros x; simpl.
  - unfold plen, len. simpl. lia.
  - rewrite IH. unfold plen. simpl. rewrite len_app. lia.
Qed.

Lemma wire_rebuild up : forall p,
  wire (rebuild up p) = wire (rebuild up NoPayload) ++ wire p.
Proof.
  induction up as [| [c l] up IH]; intros p; simpl.
  - reflexivity.
  - rewrite (IH (Layer c l p)), (IH (Layer c l NoPayload)). simpl.
    rewrite app_nil_r, <- app_assoc. reflexivity.
Qed.

(** A reference found by [getlayer_from] points into the frame it was
    looked up in, at a layer of the class asked for. *)
Lemma getlayer_from_rebuild cls p : forall up r,
  getlayer_from up p cls = Some r ->
  rebuild (above r) (here r) = rebuild up p /\
  (exists l pl, here r = Layer cls l pl) /\
  (above r = [] -> up = []).
Proof.
  induction p as [| c l pl IH]; intros up r H; simpl in H.
  - discriminate.
  - destruct (decide (c = cls)) as [-> | Hne].
    + inversion H; subst; simpl. eauto.
    + apply IH in H as (H1 & H2 & H3). simpl in H1.
      split; [exact H1 | split; [exact H2 |]].
      intros Hab. specialize (H3 Hab). discriminate.
Qed.

(** The padding walk subtracts exactly the padding length, whatever the
    frame. *)
Lemma strip_padding_x conf pkt x :
  snd (strip_padding conf pkt x) = x - padding_length conf pkt.
Proof.
  unfold strip_padding, padding_length. simpl.
  destruct (getlayer pkt (padding_layer conf)) as [r |].
  - apply pad_walk_plen.
  - lia.
Qed.

Lemma padding_length_nonneg conf pkt : 0 <= padding_length conf pkt.
Proof.
  unfold padding_length.
  destruct (getlayer pkt (padding_layer conf)); [apply plen_nonneg | lia].
Qed.

(** ** The stream socket *)

Lemma block_until_data_pending segs : forall q,
  fst (block_until_data q segs) ++ concat (snd (block_until_data q segs))
  = q ++ concat segs.
Proof.
  induction segs as [| seg segs IH]; intros q.
  - destruct q; reflexivity.
  - destruct q as [| b q]; simpl.
    + apply IH.
    + reflexivity.
Qed.

Lemma block_until_data_prefix segs : forall q,
  exists s, fst (block_until_data q segs) = q ++ s.
Proof.
  induction segs as [| seg segs IH]; intros q.
  - exists []. destruct q; simpl; now rewrite ?app_nil_r.
  - destruct q as [| b q]; simpl.
    + destruct (IH seg) as [s Hs]. exists (seg ++ s). exact Hs.
    + exists []. now rewrite app_nil_r.
Qed.

Lemma arrive_pending c : pending (arrive c) = pending c.
Proof.
  unfold arrive, pending. destruct c as [q segs]; simpl.
  destruct segs as [| seg segs].
  - pose proof (block_until_data_pending [] q) as H.
    destruct (block_until_data q []) as [q' segs']. simpl in *. exact H.
  - pose proof (block_until_data_pending segs (q ++ seg)) as H.
    destruct (block_until_data (q ++ seg) segs) as [q' segs']. simpl in *.
    rewrite H. now rewrite <- app_assoc.
Qed.

Lemma arrive_rxq_prefix c : exists s, rxq (arrive c) = rxq c ++ s.
Proof.
  unfold arrive. destruct c as [q segs]; simpl.
  destruct segs as [| seg segs].
  - destruct (block_until_data_prefix [] q) as [s Hs].
    destruct (block_until_data q []) as [q' segs']. simpl in *. eauto.
  - destruct (block_until_data_prefix segs (q ++ seg)) as [s Hs].
    destruct (block_until_data (q ++ seg) segs) as [q' segs']. simpl in *.
    exists (seg ++ s). now rewrite Hs, <- app_assoc.
Qed.

Lemma sock_recv_inv n flags c data c1 :
  sock_recv n flags c = (Return data, c1) ->
  0 <= n /\ data = take (Z.to_nat n) (rxq (arrive c)) /\
  c1 = match flags with
       | MSG_PEEK => arrive c
       | NoFlags => Stream (drop (Z.to_nat n) (rxq (arrive c))) (inflight (arrive c))
       end.
Proof.
  unfold sock_recv. destruct (Z.ltb_spec n 0) as [Hlt | Hge]; [discriminate |].
  intros Heq; inversion Heq; subst. auto.
Qed.

Lemma sock_recv_peek_pending n c data c1 :
  sock_recv n MSG_PEEK c = (Return data, c1) -> pending c1 = pending c.
Proof.
  intros H. apply sock_recv_inv in H as (_ & _ & ->). apply arrive_pending.
Qed.

(** A read of no more than what is queued takes exactly that many bytes off
    the front of the stream. *)
Lemma sock_recv_consume n c :
  0 <= n -> (Z.to_nat n <= length (rxq c))%nat ->
  exists c', sock_recv n NoFlags c = (Return (take (Z.to_nat n) (rxq c)), c') /\
             pending c' = drop (Z.to_nat n) (pending c).
Proof.
  intros Hn Hle. unfold sock_recv.
  destruct (Z.ltb_spec n 0); [lia |].
  destruct (arrive_rxq_prefix c) as [s Hs].
  exists (Stream (drop (Z.to_nat n) (rxq (arrive c))) (inflight (arrive c))).
  split.
  - f_equal. f_equal. rewrite Hs. now apply take_app_le.
  - rewrite <- (arrive_pending c). unfold pending. cbn [rxq inflight].
    symmetry. apply drop_app_le.
    rewrite Hs, length_app. lia.
Qed.

Lemma length_take_le {A} (n : nat) (l : list A) : (length (take n l) <= length l)%nat.
Proof. rewrite length_take. lia. Qed.

(** [StreamSocket.recv], once the peek and the decode are known. *)
Lemma StreamSocket_recv_run conf basecls x c data c1 q :
  sock_recv x MSG_PEEK c = (Return data, c1) ->
  data <> [] ->
  dissect basecls data = Return q ->
  padding_length conf q <= len data ->
  exists c',
    StreamSocket.recv conf basecls x c
      = (Return (fst (strip_padding conf q (len data))), c') /\
    pending c' = drop (Z.to_nat (len data - padding_length conf q)) (pending c).
Proof.
  intros Hpeek Hne Hdec HP.
  unfold StreamSocket.recv.
  rewrite (bind_Return _ _ _ _ _ Hpeek).
  destruct (Z.eqb_spec (len data) 0) as [H0 | _].
  { apply len_nil_iff in H0. contradiction. }
  unfold lift at 1. unfold bind at 1. rewrite Hdec.
  pose proof (strip_padding_x conf q (len data)) as Hx.
  destruct (strip_padding conf q (len data)) as [p n]. simpl in Hx. subst n. simpl.
  pose proof (padding_length_nonneg conf q) as HP0.
  pose proof (sock_recv_inv _ _ _ _ _ Hpeek) as (_ & Hdata & ->).
  destruct (sock_recv_consume (len data - padding_length conf q) (arrive c))
    as (c' & Hrecv & Hpend).
  - lia.
  - assert (length data <= length (rxq (arrive c)))%nat
      by (rewrite Hdata; apply length_take_le).
    unfold len in *. lia.
  - exists c'. rewrite (bind_Return _ _ _ _ _ Hrecv). split; [reflexivity |].
    now rewrite Hpend, arrive_pending.
Qed.

(** ** [SSLStreamSocket.recv], path by path *)

(** The buffer already holds a frame: no read, two decodes of the buffer. *)
Lemma SSL_recv_buffered conf basecls x st q :
  SSLStreamSocket._buf st <> [] ->
  dissect basecls (SSLStreamSocket._buf st) = Return q ->
  truthy q = true ->
  SSLStreamSocket.recv conf basecls x st
  = (Return (fst (strip_padding conf q (len (SSLStreamSocket._buf st)))),
     SSLStreamSocket.State (SSLStreamSocket.ins st)
       (slice_from (SSLStreamSocket._buf st)
          (snd (strip_padding conf q (len (SSLStreamSocket._buf st)))))
       (SSLStreamSocket.decoded st
          ++ [SSLStreamSocket._buf st; SSLStreamSocket._buf st])).
Proof.
  intros Hne Hdec Htr. destruct st as [c B log]. simpl in *.
  unfold SSLStreamSocket.recv, bind, get, try_except, SSLStreamSocket.call_basecls,
    modify, lift, ret, SSLStreamSocket.set_buf. simpl.
  destruct (decide (B <> [])) as [_ | Hc]; [| contradiction].
  rewrite Hdec. simpl. rewrite Htr. simpl. rewrite Hdec.
  destruct (strip_padding conf q (len B)) as [p n]. simpl.
  rewrite <- app_assoc. reflexivity.
Qed.

(** The buffer holds no frame: one read, then the decode of the grown
    buffer decides. *)
Lemma SSL_recv_read conf basecls x st buf c1 :
  buffered_frame basecls (SSLStreamSocket._buf st) = false ->
  sock_recv x NoFlags (SSLStreamSocket.ins st) = (Return buf, c1) ->
  buf <> [] ->
  let B := SSLStreamSocket._buf st ++ buf in
  let log := SSLStreamSocket.decoded st
               ++ first_attempt (SSLStreamSocket._buf st) ++ [B] in
  SSLStreamSocket.recv conf basecls x st
  = match dissect basecls B with
    | Return q =>
        (Return (fst (strip_padding conf q (len B))),
         SSLStreamSocket.State c1
           (slice_from B (snd (strip_padding conf q (len B)))) log)
    | Raise e => (Raise e, SSLStreamSocket.State c1 B log)
    end.
Proof.
  intros Hbf Hrecv Hne B log. subst B log.
  destruct st as [c B0 lg]. simpl in *.
  assert (Hlen : (len buf =? 0) = false).
  { apply Z.eqb_neq. intros H0. apply len_nil_iff in H0. contradiction. }
  unfold SSLStreamSocket.recv, bind, get, try_except, SSLStreamSocket.call_basecls,
    modify, lift, ret, SSLStreamSocket.set_buf, SSLStreamSocket.ins_recv,
    buffered_frame, first_attempt in *. simpl.
  destruct (decide (B0 <> [])) as [Hn | Hn]; simpl.
  - destruct (dissect basecls B0) as [p0 | e0]; simpl.
    + rewrite Hbf. simpl. rewrite Hrecv. simpl. rewrite Hlen. simpl.
      destruct (dissect basecls (B0 ++ buf)) as [q | e]; simpl.
      * destruct (strip_padding conf q (len (B0 ++ buf))) as [p n]. simpl.
        now rewrite <- !app_assoc.
      * now rewrite <- !app_assoc.
    + rewrite Hrecv. simpl. rewrite Hlen. simpl.
      destruct (dissect basecls (B0 ++ buf)) as [q | e]; simpl.
      * destruct (strip_padding conf q (len (B0 ++ buf))) as [p n]. simpl.
        now rewrite <- !app_assoc.
      * now rewrite <- !app_assoc.
  - rewrite Hrecv. simpl. rewrite Hlen. simpl.
    destruct (dissect basecls (B0 ++ buf)) as [q | e]; simpl.
    + destruct (strip_padding conf q (len (B0 ++ buf))) as [p n]. reflexivity.
    + reflexivity.
Qed.

(** The buffer holds no frame and the read returns nothing. *)
Lemma SSL_recv_eof conf basecls x st c1 :
  buffered_frame basecls (SSLStreamSocket._buf st) = false ->
  sock_recv x NoFlags (SSLStreamSocket.ins st) = (Return [], c1) ->
  SSLStreamSocket.recv conf basecls x st
  = (Raise torn_down,
     SSLStreamSocket.State c1 (SSLStreamSocket._buf st)
       (SSLStreamSocket.decoded st ++ first_attempt (SSLStreamSocket._buf st))).
Proof.
  intros Hbf Hrecv. destruct st as [c B0 lg]. simpl in *.
  unfold SSLStreamSocket.recv, bind, get, try_except, SSLStreamSocket.call_basecls,
    modify, lift, ret, SSLStreamSocket.set_buf, SSLStreamSocket.ins_recv,
    buffered_frame, first_attempt, raise in *. simpl.
  destruct (decide (B0 <> [])) as [Hn | Hn]; simpl.
  - destruct (dissect basecls B0) as [p0 | e0]; simpl.
    + rewrite Hbf. simpl. rewrite Hrecv. reflexivity.
    + rewrite Hrecv. reflexivity.
  - rewrite Hrecv. simpl. now rewrite app_nil_r.
Qed.

Lemma slice_from_drop s n :
  0 <= n <= len s -> slice_from s n = drop (Z.to_nat n) s.
Proof.
  intros [H0 H1]. unfold slice_from.
  destruct (Z.ltb_spec n 0); [lia |].
  now rewrite Z.min_l by lia.
Qed.

Lemma len_drop s (n : Z) :
  0 <= n <= len s -> len (drop (Z.to_nat n) s) = len s - n.
Proof. intros H. unfold len in *. rewrite length_drop. lia. Qed.

(** When the padding is the root of the frame nothing is detached. *)
Lemma strip_padding_root conf l pl x :
  fst (strip_padding conf (Layer (padding_layer conf) l pl) x)
  = Layer (padding_layer conf) l pl.
Proof.
  unfold strip_padding, getlayer. simpl.
  destruct (decide (padding_layer conf = padding_layer conf)); [| contradiction].
  reflexivity.
Qed.

Lemma SSL_recv_run conf basecls x st B q :
  decodes_buffer basecls x st B ->
  dissect basecls B = Return q ->
  exists st',
    SSLStreamSocket.recv conf basecls x st
      = (Return (fst (strip_padding conf q (len B))), st') /\
    SSLStreamSocket._buf st' = slice_from B (len B - padding_length conf q).
Proof.
  intros [[-> Hbf] | (Hbf & buf & c1 & Hrecv & Hne & ->)] Hdec.
  - unfold buffered_frame in Hbf.
    destruct (decide (SSLStreamSocket._buf st <> [])) as [Hn | Hn]; [| discriminate].
    rewrite Hdec in Hbf.
    rewrite (SSL_recv_buffered conf basecls x st q Hn Hdec Hbf).
    eexists; split; [reflexivity |]. cbn [SSLStreamSocket._buf].
    now rewrite strip_padding_x.
  - rewrite (SSL_recv_read conf basecls x st buf c1 Hbf Hrecv Hne). cbv zeta.
    rewrite Hdec. eexists; split; [reflexivity |]. cbn [SSLStreamSocket._buf].
    now rewrite strip_padding_x.
Qed.

(** C8: a zero-length read is fatal to the call.  When [StreamSocket.recv]
    peeks no byte, and when [SSLStreamSocket.recv], finding no frame in its
    buffer, reads and gets no byte, the call raises
    [socket.error((100, "Underlying stream socket tore down"))]; it does
    not return. *)
Theorem zero_length_read_raises conf basecls x :
  (forall c c1,
     sock_recv x MSG_PEEK c = (Return [], c1) ->
     StreamSocket.recv conf basecls x c
       = (Raise (SocketError (100, "Underlying stream socket tore down"%string)), c1)) /\
  (forall st c1,
     buffered_frame basecls (SSLStreamSocket._buf st) = false ->
     sock_recv x NoFlags (SSLStreamSocket.ins st) = (Return [], c1) ->
     exists st',
       SSLStreamSocket.recv conf basecls x st
         = (Raise (SocketError (100, "Underlying stream socket tore down"%string)), st') /\
       SSLStreamSocket._buf st' = SSLStreamSocket._buf st).
Proof.
  split.
  - intros c c1 Hpeek. unfold StreamSocket.recv.
    rewrite (bind_Return _ _ _ _ _ Hpeek). reflexivity.
  - intros st c1 Hbf Hrecv.
    rewrite (SSL_recv_eof conf basecls x st c1 Hbf Hrecv).
    eexists; split; reflexivity.
Qed.

Lemma zero_length_read_raises_witness :
  StreamSocket.recv Sample.conf Sample.Raw 1500 (Stream [] [])
    = (Raise (SocketError (100, "Underlying stream socket tore down"%string)),
       Stream [] []) /\
  exists st',
    SSLStreamSocket.recv Sample.conf Sample.StrictRecord 65535
        (SSLStreamSocket.State (Stream [] []) [Sample.b 3; Sample.b 7] [])
      = (Raise (SocketError (100, "Underlying stream socket tore down"%string)), st') /\
    SSLStreamSocket._buf st' = [Sample.b 3; Sample.b 7].
Proof.
  split.
  - apply (proj1 (zero_length_read_raises Sample.conf Sample.Raw 1500)).
    reflexivity.
  - apply (proj2 (zero_length_read_raises Sample.conf Sample.StrictRecord 65535)
             (SSLStreamSocket.State (Stream [] []) [Sample.b 3; Sample.b 7] [])
             (Stream [] [])); reflexivity.
Defined.

(** C1: the padding law.  In [StreamSocket.recv], when the peek gives
    [data] and the decoded frame has a padding chain of total length [P]
    (at most the peeked length), the call consumes exactly
    [len data - P] bytes of the channel; in [SSLStreamSocket.recv], when the
    buffer [B] is decoded, exactly the first [len B - P] bytes leave the
    buffer.  [P] may be [0] or the whole length; when the padding is the
    root of the frame, the frame is returned undetached and the count is
    the same. *)
Theorem padding_law conf basecls x :
  (forall c data c1 q,
     sock_recv x MSG_PEEK c = (Return data, c1) ->
     data <> [] ->
     dissect basecls data = Return q ->
     padding_length conf q <= len data ->
     exists p c',
       StreamSocket.recv conf basecls x c = (Return p, c') /\
       pending c' = drop (Z.to_nat (len data - padding_length conf q)) (pending c) /\
       len (pending c) - len (pending c') = len data - padding_length conf q /\
       (forall l pl, q = Layer (padding_layer conf) l pl -> p = q)) /\
  (forall st B q,
     decodes_buffer basecls x st B ->
     dissect basecls B = Return q ->
     padding_length conf q <= len B ->
     exists p st',
       SSLStreamSocket.recv conf basecls x st = (Return p, st') /\
       SSLStreamSocket._buf st' = drop (Z.to_nat (len B - padding_length conf q)) B /\
       len B - len (SSLStreamSocket._buf st') = len B - padding_length conf q /\
       (forall l pl, q = Layer (padding_layer conf) l pl -> p = q)).
Proof.
  split.
  - intros c data c1 q Hpeek Hne Hdec HP.
    pose proof (padding_length_nonneg conf q) as HP0.
    destruct (StreamSocket_recv_run conf basecls x c data c1 q Hpeek Hne Hdec HP)
      as (c' & Hrun & Hpend).
    exists (fst (strip_padding conf q (len data))), c'.
    split; [exact Hrun |]. split; [exact Hpend |]. split.
    + rewrite Hpend, len_drop; [lia |].
      split; [lia |].
      apply sock_recv_inv in Hpeek as (_ & Hdata & _).
      destruct (arrive_rxq_prefix c) as [s Hs].
      assert (len data <= len (rxq (arrive c))).
      { rewrite Hdata. unfold len. pose proof (length_take_le (Z.to_nat x) (rxq (arrive c))). lia. }
      rewrite <- (arrive_pending c). unfold pending. rewrite len_app.
      pose proof (len_nonneg (concat (inflight (arrive c)))). lia.
    + intros l pl ->. apply strip_padding_root.
  - intros st B q Hpath Hdec HP.
    pose proof (padding_length_nonneg conf q) as HP0.
    destruct (SSL_recv_run conf basecls x st B q Hpath Hdec) as (st' & Hrun & Hbuf).
    exists (fst (strip_padding conf q (len B))), st'.
    split; [exact Hrun |].
    rewrite Hbuf, slice_from_drop by lia.
    split; [reflexivity |]. split.
    + rewrite len_drop by lia. lia.
    + intros l pl ->. apply strip_padding_root.
Qed.

Lemma padding_law_witness :
  (exists p c',
     StreamSocket.recv Sample.conf Sample.LenRecord 1500
         (Stream [] [Sample.record_and_more]) = (Return p, c') /\
     pending c' = drop (Z.to_nat (len Sample.record_and_more
                                  - padding_length Sample.conf Sample.record_decoded))
                       (pending (Stream [] [Sample.record_and_more])) /\
     len (pending (Stream [] [Sample.record_and_more])) - len (pending c')
       = len Sample.record_and_more
         - padding_length Sample.conf Sample.record_decoded /\
     (forall l pl, Sample.record_decoded = Layer (padding_layer Sample.conf) l pl ->
                   p = Sample.record_decoded)) /\
  (exists p st',
     SSLStreamSocket.recv Sample.conf Sample.LenRecord 65535
         (SSLStreamSocket.State (Stream [] [Sample.record_and_more]) [] [])
       = (Return p, st') /\
     SSLStreamSocket._buf st'
       = drop (Z.to_nat (len Sample.record_and_more
                         - padding_length Sample.conf Sample.record_decoded))
              Sample.record_and_more /\
     len Sample.record_and_more - len (SSLStreamSocket._buf st')
       = len Sample.record_and_more
         - padding_length Sample.conf Sample.record_decoded /\
     (forall l pl, Sample.record_decoded = Layer (padding_layer Sample.conf) l pl ->
                   p = Sample.record_decoded)).
Proof.
  split.
  - apply (proj1 (padding_law Sample.conf Sample.LenRecord 1500)
             (Stream [] [Sample.record_and_more]) Sample.record_and_more
             (Stream Sample.record_and_more []) Sample.record_decoded).
    + reflexivity.
    + discriminate.
    + reflexivity.
    + vm_compute. discriminate.
  - apply (proj2 (padding_law Sample.conf Sample.LenRecord 65535)
             (SSLStreamSocket.State (Stream [] [Sample.record_and_more]) [] [])
             Sample.record_and_more Sample.record_decoded).
    + right. split; [reflexivity |].
      exists Sample.record_and_more, (Stream [] []).
      split; [reflexivity |]. split; [discriminate | reflexivity].
    + reflexivity.
    + vm_compute. discriminate.
Defined.

(** ** The buffer of [SSLStreamSocket] *)

Lemma getlayer_root_padding conf q r :
  getlayer q (padding_layer conf) = Some r ->
  above r = [] ->
  exists l pl, q = Layer (padding_layer conf) l pl.
Proof.
  intros Hg Hab. apply getlayer_from_rebuild in Hg as (Hre & (l & pl & Hh) & _).
  rewrite Hab in Hre. simpl in Hre. subst q. eauto.
Qed.

Lemma strip_padding_splits conf q :
  (forall l pl, q <> Layer (padding_layer conf) l pl) ->
  splits_off (wire q) (fst (strip_padding conf q (len (wire q))))
             (drop (Z.to_nat (len (wire q) - padding_length conf q)) (wire q)).
Proof.
  intros Hroot. unfold splits_off, strip_padding, padding_length.
  destruct (getlayer q (padding_layer conf)) as [r |] eqn:Hg; cbn [fst].
  - destruct (above r) as [| u up] eqn:Hab.
    { destruct (getlayer_root_padding conf q r Hg Hab) as (l & pl & ->).
      exfalso. now apply (Hroot l pl). }
    unfold underlayer. rewrite Hab. cbn [head].
    apply getlayer_from_rebuild in Hg as (Hre & _ & _).
    change (rebuild [] q) with q in Hre.
    unfold del_underlayer_payload. rewrite Hab.
    rewrite <- Hre, Hab, wire_rebuild.
    set (w := wire (rebuild (u :: up) NoPayload)).
    unfold plen. rewrite len_app.
    replace (len w + len (wire (here r)) - len (wire (here r))) with (len w) by lia.
    unfold len. rewrite Nat2Z.id, drop_app_length. reflexivity.
  - rewrite Z.sub_0_r. unfold len. rewrite Nat2Z.id, drop_all.
    now rewrite app_nil_r.
Qed.

Lemma padding_length_le_wire conf q : padding_length conf q <= len (wire q).
Proof.
  unfold padding_length.
  destruct (getlayer q (padding_layer conf)) as [r |] eqn:Hg.
  - apply getlayer_from_rebuild in Hg as (Hre & _ & _). simpl in Hre.
    rewrite <- Hre, wire_rebuild, len_app. unfold plen.
    pose proof (len_nonneg (wire (rebuild (above r) NoPayload))). lia.
  - apply len_nonneg.
Qed.

(** C2, amended: after a [recv] that returns, provided the decoder accounts
    for every byte of the buffer it decoded and the padding layer is not
    the root of the decoded frame, that buffer splits into the bytes of the
    returned frame and the bytes the buffer keeps; so no byte of the
    returned record stays in the buffer.  When the root of the decoded
    frame is the padding layer, the frame is returned whole and the buffer
    keeps every byte of it. *)
Theorem buffer_drops_returned_record conf basecls x st B q :
  decodes_buffer basecls x st B ->
  dissect basecls B = Return q ->
  wire q = B ->
  ((forall l pl, q <> Layer (padding_layer conf) l pl) ->
   exists p st',
     SSLStreamSocket.recv conf basecls x st = (Return p, st') /\
     splits_off B p (SSLStreamSocket._buf st')) /\
  (forall l pl, q = Layer (padding_layer conf) l pl ->
   exists st',
     SSLStreamSocket.recv conf basecls x st = (Return q, st') /\
     SSLStreamSocket._buf st' = B).
Proof.
  intros Hpath Hdec Hwire.
  destruct (SSL_recv_run conf basecls x st B q Hpath Hdec) as (st' & Hrun & Hbuf).
  pose proof (padding_length_le_wire conf q) as HP.
  pose proof (padding_length_nonneg conf q) as HP0.
  rewrite Hwire in HP.
  rewrite slice_from_drop in Hbuf by lia.
  split.
  - intros Hroot. exists (fst (strip_padding conf q (len B))), st'.
    split; [exact Hrun |]. rewrite Hbuf, <- Hwire.
    now apply strip_padding_splits.
  - intros l pl Hq. exists st'. split.
    + rewrite Hrun. subst q. now rewrite strip_padding_root.
    + rewrite Hbuf. subst q.
      assert (padding_length conf (Layer (padding_layer conf) l pl) = len B) as ->.
      { unfold padding_length, getlayer. simpl.
        destruct (decide (padding_layer conf = padding_layer conf)); [| contradiction].
        simpl. unfold plen. now rewrite Hwire. }
      now rewrite Z.sub_diag.
Qed.

Lemma buffer_drops_returned_record_witness :
  ((forall l pl, Sample.record_decoded <> Layer (padding_layer Sample.conf) l pl) ->
   exists p st',
     SSLStreamSocket.recv Sample.conf Sample.LenRecord 65535
         (Sample.ssl_start Sample.record_and_more) = (Return p, st') /\
     splits_off Sample.record_and_more p (SSLStreamSocket._buf st')) /\
  (forall l pl, Sample.record_decoded = Layer (padding_layer Sample.conf) l pl ->
   exists st',
     SSLStreamSocket.recv Sample.conf Sample.LenRecord 65535
         (Sample.ssl_start Sample.record_and_more)
       = (Return Sample.record_decoded, st') /\
     SSLStreamSocket._buf st' = Sample.record_and_more).
Proof.
  apply (buffer_drops_returned_record Sample.conf Sample.LenRecord 65535
           (Sample.ssl_start Sample.record_and_more)
           Sample.record_and_more Sample.record_decoded).
  - right. split; [reflexivity |].
    exists Sample.record_and_more, (Stream [] []).
    split; [reflexivity |]. split; [discriminate | reflexivity].
  - reflexivity.
  - reflexivity.
Defined.

(** C2 as stated fails when the decoder makes the padding layer the root of
    the frame: nothing is removed, the buffer keeps every byte of the frame
    just returned, and the next call returns that frame again without
    reading. *)
Lemma buffer_keeps_returned_record :
  exists p st' st'',
    SSLStreamSocket.recv Sample.conf Sample.Padding 65535
        (Sample.ssl_start [Sample.b 1; Sample.b 2]) = (Return p, st') /\
    wire p = [Sample.b 1; Sample.b 2] /\
    SSLStreamSocket._buf st' = [Sample.b 1; Sample.b 2] /\
    ~ splits_off [Sample.b 1; Sample.b 2] p (SSLStreamSocket._buf st') /\
    SSLStreamSocket.recv Sample.conf Sample.Padding 65535 st' = (Return p, st'') /\
    SSLStreamSocket.ins st'' = SSLStreamSocket.ins st'.
Proof.
  exists (Layer "Padding" [Sample.b 1; Sample.b 2] NoPayload),
         (SSLStreamSocket.State (Stream [] []) [Sample.b 1; Sample.b 2]
                                [[Sample.b 1; Sample.b 2]]),
         (SSLStreamSocket.State (Stream [] []) [Sample.b 1; Sample.b 2]
                                [[Sample.b 1; Sample.b 2]; [Sample.b 1; Sample.b 2];
                                 [Sample.b 1; Sample.b 2]]).
  split; [reflexivity |].
  split; [reflexivity |]. split; [reflexivity |].
  split; [unfold splits_off; simpl; discriminate |].
  split; reflexivity.
Qed.

(** C10: only the first decode of [SSLStreamSocket.recv] is guarded.  When
    the buffer holds no frame (it is empty, or its decode raised and the
    exception was swallowed, or gave a false value) and the read brings
    bytes, an exception of the decode of the grown buffer reaches the
    caller, the buffer keeping everything.  When the first decode gave a
    frame, nothing is read, the buffer is decoded a second time, and the
    frame returned is the one of that second decode. *)
Theorem second_decode_unguarded conf basecls x st :
  (forall buf c1 e,
     buffered_frame basecls (SSLStreamSocket._buf st) = false ->
     sock_recv x NoFlags (SSLStreamSocket.ins st) = (Return buf, c1) ->
     buf <> [] ->
     dissect basecls (SSLStreamSocket._buf st ++ buf) = Raise e ->
     exists st',
       SSLStreamSocket.recv conf basecls x st = (Raise e, st') /\
       SSLStreamSocket._buf st' = SSLStreamSocket._buf st ++ buf /\
       SSLStreamSocket.decoded st'
         = SSLStreamSocket.decoded st
             ++ first_attempt (SSLStreamSocket._buf st)
             ++ [SSLStreamSocket._buf st ++ buf]) /\
  (forall q,
     SSLStreamSocket._buf st <> [] ->
     dissect basecls (SSLStreamSocket._buf st) = Return q ->
     truthy q = true ->
     exists st',
       SSLStreamSocket.recv conf basecls x st
         = (Return (fst (strip_padding conf q (len (SSLStreamSocket._buf st)))), st') /\
       SSLStreamSocket.ins st' = SSLStreamSocket.ins st /\
       SSLStreamSocket.decoded st'
         = SSLStreamSocket.decoded st
             ++ [SSLStreamSocket._buf st; SSLStreamSocket._buf st]).
Proof.
  split.
  - intros buf c1 e Hbf Hrecv Hne Hdec.
    rewrite (SSL_recv_read conf basecls x st buf c1 Hbf Hrecv Hne). cbv zeta.
    rewrite Hdec. eexists; repeat split; reflexivity.
  - intros q Hne Hdec Htr.
    rewrite (SSL_recv_buffered conf basecls x st q Hne Hdec Htr).
    eexists; repeat split; reflexivity.
Qed.

Lemma second_decode_unguarded_witness :
  (exists st',
     SSLStreamSocket.recv Sample.conf Sample.StrictRecord 65535
         (SSLStreamSocket.State (Stream [] [[Sample.b 8]]) [Sample.b 3; Sample.b 7] [])
       = (Raise (OtherError "struct.error"), st') /\
     SSLStreamSocket._buf st' = [Sample.b 3; Sample.b 7] ++ [Sample.b 8] /\
     SSLStreamSocket.decoded st'
       = [] ++ first_attempt [Sample.b 3; Sample.b 7]
            ++ [[Sample.b 3; Sample.b 7] ++ [Sample.b 8]]) /\
  (exists st',
     SSLStreamSocket.recv Sample.conf Sample.LenRecord 65535
         (SSLStreamSocket.State (Stream [] []) Sample.record_and_more [])
       = (Return (fst (strip_padding Sample.conf Sample.record_decoded
                         (len Sample.record_and_more))), st') /\
     SSLStreamSocket.ins st' = Stream [] [] /\
     SSLStreamSocket.decoded st'
       = [] ++ [Sample.record_and_more; Sample.record_and_more]).
Proof.
  split.
  - apply (proj1 (second_decode_unguarded Sample.conf Sample.StrictRecord 65535
                    (SSLStreamSocket.State (Stream [] [[Sample.b 8]])
                                           [Sample.b 3; Sample.b 7] []))
             [Sample.b 8] (Stream [] []) (OtherError "struct.error"));
      [reflexivity | reflexivity | discriminate | reflexivity].
  - apply (proj2 (second_decode_unguarded Sample.conf Sample.LenRecord 65535
                    (SSLStreamSocket.State (Stream [] []) Sample.record_and_more []))
             Sample.record_decoded);
      [discriminate | reflexivity | reflexivity].
Defined.

(** ** [L3RawSocket.recv] *)

Lemma logged_logged w evs evs' :
  L3RawSocket.logged (L3RawSocket.logged w evs) evs' = L3RawSocket.logged w (evs ++ evs').
Proof. unfold L3RawSocket.logged. simpl. now rewrite app_assoc. Qed.

Lemma log_logged w evs : L3RawSocket.log (L3RawSocket.logged w evs) = L3RawSocket.log w ++ evs.
Proof. reflexivity. Qed.

(** The guarded decode, outcome by outcome. *)
Lemma decode_run conf cls raw w :
  L3RawSocket.decode conf cls raw w
  = match dissect cls raw with
    | Return q => (Return q, L3RawSocket.logged w [L3RawSocket.Dissect (name cls) raw])
    | Raise KeyboardInterrupt =>
        (Raise KeyboardInterrupt,
         L3RawSocket.logged w [L3RawSocket.Dissect (name cls) raw])
    | Raise e =>
        if debug_dissector conf then
          (Raise e, L3RawSocket.logged w [L3RawSocket.Dissect (name cls) raw])
        else
          (dissect (raw_layer conf) raw,
           L3RawSocket.logged w [L3RawSocket.Dissect (name cls) raw;
                                 L3RawSocket.Dissect (name (raw_layer conf)) raw])
    end.
Proof.
  unfold L3RawSocket.decode, try_except, L3RawSocket.call, L3RawSocket.emit,
    bind, modify, lift, raise.
  destruct (dissect cls raw) as [q | e]; [reflexivity |].
  destruct e; try reflexivity;
    destruct (debug_dissector conf); try reflexivity;
    now rewrite logged_logged.
Qed.

(** After the guarded decode the log has grown by decode attempts only. *)
Lemma decode_log conf cls raw w :
  exists evs,
    snd (L3RawSocket.decode conf cls raw w)
      = L3RawSocket.logged w (L3RawSocket.Dissect (name cls) raw :: evs) /\
    warnings evs = 0%nat.
Proof.
  rewrite decode_run.
  destruct (dissect cls raw) as [q | e].
  - exists []. split; reflexivity.
  - destruct e; destruct (debug_dissector conf);
      (exists []; split; reflexivity) ||
      (exists [L3RawSocket.Dissect (name (raw_layer conf)) raw]; split; reflexivity).
Qed.

(** [recv] on an incoming frame, after the dispatch. *)
Lemma L3_recv_incoming conf x w raw0 sa rest :
  0 <= x ->
  L3RawSocket.rx w = Return (raw0, sa) :: rest ->
  L3RawSocket.sll_pkttype sa <> L3RawSocket.PACKET_OUTGOING ->
  forall cls lvl w1,
    L3RawSocket.dispatch conf sa (L3RawSocket.with_rx w rest) = (Return (cls, lvl), w1) ->
    L3RawSocket.recv conf x w
    = match L3RawSocket.decode conf cls (take (Z.to_nat x) raw0) w1 with
      | (Return q, w2) =>
          (Return (Some (if lvl =? 2 then payload q else q,
                         L3RawSocket.last_packet_timestamp w2)), w2)
      | (Raise e, w2) => (Raise e, w2)
      end.
Proof.
  intros Hx Hrx Hin cls lvl w1 Hd.
  unfold L3RawSocket.recv, L3RawSocket.ins_recvfrom.
  unfold bind at 1. destruct (Z.ltb_spec x 0) as [Hlt | _]; [lia |].
  rewrite Hrx. cbv zeta.
  destruct (Z.eqb_spec (L3RawSocket.sll_pkttype sa) L3RawSocket.PACKET_OUTGOING)
    as [Heq | _]; [contradiction |].
  unfold bind at 1. rewrite Hd.
  unfold bind at 1.
  destruct (L3RawSocket.decode conf cls (take (Z.to_nat x) raw0) w1) as [[q | e] w2];
    reflexivity.
Qed.

Lemma L3_recv_after_dispatch conf x w raw0 sa rest cls lvl w1 :
  0 <= x ->
  L3RawSocket.rx w = Return (raw0, sa) :: rest ->
  L3RawSocket.sll_pkttype sa <> L3RawSocket.PACKET_OUTGOING ->
  L3RawSocket.dispatch conf sa (L3RawSocket.with_rx w rest) = (Return (cls, lvl), w1) ->
  exists r evs,
    L3RawSocket.recv conf x w
      = (r, L3RawSocket.logged w1
              (L3RawSocket.Dissect (name cls) (take (Z.to_nat x) raw0) :: evs)) /\
    warnings evs = 0%nat /\
    forall q, dissect cls (take (Z.to_nat x) raw0) = Return q ->
      r = Return (Some (if lvl =? 2 then payload q else q,
                        L3RawSocket.last_packet_timestamp w1)).
Proof.
  intros Hx Hrx Hin Hd.
  rewrite (L3_recv_incoming conf x w raw0 sa rest Hx Hrx Hin cls lvl w1 Hd).
  destruct (decode_log conf cls (take (Z.to_nat x) raw0) w1) as (evs & Hlog & Hw).
  pose proof (decode_run conf cls (take (Z.to_nat x) raw0) w1) as Hrun.
  destruct (L3RawSocket.decode conf cls (take (Z.to_nat x) raw0) w1) as [[q | e] w2];
    simpl in Hlog; subst w2.
  - eexists _, evs. split; [reflexivity |]. split; [exact Hw |].
    intros q' Hq. rewrite Hq in Hrun. inversion Hrun; subst. reflexivity.
  - eexists _, evs. split; [reflexivity |]. split; [exact Hw |].
    intros q' Hq. rewrite Hq in Hrun. discriminate.
Qed.

(** C6: a frame the host itself sent ([sa_ll[2] == PACKET_OUTGOING]) makes
    [L3RawSocket.recv] return [None]: no exception, no decode attempt, no
    warning, nothing logged. *)
Theorem outgoing_returns_None conf x w raw0 sa rest :
  0 <= x ->
  L3RawSocket.rx w = Return (raw0, sa) :: rest ->
  L3RawSocket.sll_pkttype sa = L3RawSocket.PACKET_OUTGOING ->
  L3RawSocket.recv conf x w = (Return None, L3RawSocket.with_rx w rest) /\
  L3RawSocket.log (L3RawSocket.with_rx w rest) = L3RawSocket.log w.
Proof.
  intros Hx Hrx Hout. split; [| reflexivity].
  unfold L3RawSocket.recv, L3RawSocket.ins_recvfrom.
  unfold bind at 1. destruct (Z.ltb_spec x 0) as [Hlt | _]; [lia |].
  rewrite Hrx. cbv zeta. rewrite Hout. reflexivity.
Qed.

Lemma outgoing_returns_None_witness :
  L3RawSocket.recv Sample.conf 1500
      (Sample.captured [Sample.b 1; Sample.b 2; Sample.b 3]
                       (L3RawSocket.SockaddrLL "eth0" 2048 4 1))
    = (Return None,
       L3RawSocket.with_rx
         (Sample.captured [Sample.b 1; Sample.b 2; Sample.b 3]
                          (L3RawSocket.SockaddrLL "eth0" 2048 4 1)) []) /\
  L3RawSocket.log
    (L3RawSocket.with_rx
       (Sample.captured [Sample.b 1; Sample.b 2; Sample.b 3]
                        (L3RawSocket.SockaddrLL "eth0" 2048 4 1)) [])
    = L3RawSocket.log (Sample.captured [Sample.b 1; Sample.b 2; Sample.b 3]
                                       (L3RawSocket.SockaddrLL "eth0" 2048 4 1)).
Proof.
  apply (outgoing_returns_None Sample.conf 1500
           (Sample.captured [Sample.b 1; Sample.b 2; Sample.b 3]
                            (L3RawSocket.SockaddrLL "eth0" 2048 4 1))
           [Sample.b 1; Sample.b 2; Sample.b 3]
           (L3RawSocket.SockaddrLL "eth0" 2048 4 1) []);
    [lia | reflexivity | reflexivity].
Defined.

Lemma plen_payload q : plen (payload q) = plen q - header_length q.
Proof.
  destruct q as [| c l pl]; unfold plen; simpl.
  - reflexivity.
  - rewrite len_app. lia.
Qed.

(** C4: the dispatch of [L3RawSocket.recv] on an incoming frame [raw] with
    address [sa].  (1) When [sa_ll[3]] is in [conf.l2types], the class found
    there decodes the frame, no warning is emitted, and when the decode
    gives [q] the result is [q.payload], whose length is the raw length
    minus the length of the link header (for a decoder that accounts for
    every raw byte).  (2) Otherwise, when [sa_ll[1]] is in [conf.l3types],
    the class found there decodes the frame, no warning is emitted, and the
    decoded frame is returned as it is.  (3) Otherwise [conf.default_l2]
    decodes the frame and exactly one warning is emitted, which carries the
    interface, [sa_ll[1]], [sa_ll[3]] and the name of the default class. *)
Theorem dispatch_by_metadata conf x w raw0 sa rest :
  0 <= x ->
  L3RawSocket.rx w = Return (raw0, sa) :: rest ->
  L3RawSocket.sll_pkttype sa <> L3RawSocket.PACKET_OUTGOING ->
  let raw := take (Z.to_nat x) raw0 in
  let ts := L3RawSocket.last_packet_timestamp w in
  exists r w' evs,
    L3RawSocket.recv conf x w = (r, w') /\
    L3RawSocket.log w' = L3RawSocket.log w ++ evs /\
    (forall cls,
       l2types conf !! L3RawSocket.sll_hatype sa = Some cls ->
       head evs = Some (L3RawSocket.Dissect (name cls) raw) /\
       warnings evs = 0%nat /\
       forall q, dissect cls raw = Return q ->
         r = Return (Some (payload q, ts)) /\
         (plen q = len raw -> plen (payload q) = len raw - header_length q)) /\
    (forall cls,
       l2types conf !! L3RawSocket.sll_hatype sa = None ->
       l3types conf !! L3RawSocket.sll_protocol sa = Some cls ->
       head evs = Some (L3RawSocket.Dissect (name cls) raw) /\
       warnings evs = 0%nat /\
       forall q, dissect cls raw = Return q -> r = Return (Some (q, ts))) /\
    (l2types conf !! L3RawSocket.sll_hatype sa = None ->
     l3types conf !! L3RawSocket.sll_protocol sa = None ->
     head evs = Some (L3RawSocket.Warning (L3RawSocket.sll_ifname sa)
                        (L3RawSocket.sll_protocol sa) (L3RawSocket.sll_hatype sa)
                        (name (default_l2 conf))) /\
     evs !! 1%nat = Some (L3RawSocket.Dissect (name (default_l2 conf)) raw) /\
     warnings evs = 1%nat /\
     forall q, dissect (default_l2 conf) raw = Return q -> r = Return (Some (q, ts))).
Proof.
  intros Hx Hrx Hin raw ts. subst raw ts.
  destruct (l2types conf !! L3RawSocket.sll_hatype sa) as [c2 |] eqn:H2.
  - destruct (L3_recv_after_dispatch conf x w raw0 sa rest c2 2
                (L3RawSocket.with_rx w rest) Hx Hrx Hin) as (r & evs & Hrun & Hw & Hq).
    { unfold L3RawSocket.dispatch. now rewrite H2. }
    eexists r, _, _. split; [exact Hrun |]. split; [reflexivity |].
    split; [| split; [intros ? [=] | intros [=]]].
    intros cls [= <-]. split; [reflexivity |]. split; [exact Hw |].
    intros q Hdq. split; [exact (Hq q Hdq) |].
    intros Hlen. rewrite plen_payload. lia.
  - destruct (l3types conf !! L3RawSocket.sll_protocol sa) as [c3 |] eqn:H3.
    + destruct (L3_recv_after_dispatch conf x w raw0 sa rest c3 3
                  (L3RawSocket.with_rx w rest) Hx Hrx Hin) as (r & evs & Hrun & Hw & Hq).
      { unfold L3RawSocket.dispatch. now rewrite H2, H3. }
      eexists r, _, _. split; [exact Hrun |]. split; [reflexivity |].
      split; [intros ? [=] | split; [| intros _ [=]]].
      intros cls _ [= <-]. split; [reflexivity |]. split; [exact Hw |].
      exact Hq.
    + destruct (L3_recv_after_dispatch conf x w raw0 sa rest (default_l2 conf) 3
                  (L3RawSocket.logged (L3RawSocket.with_rx w rest)
                     [L3RawSocket.Warning (L3RawSocket.sll_ifname sa)
                        (L3RawSocket.sll_protocol sa) (L3RawSocket.sll_hatype sa)
                        (name (default_l2 conf))]) Hx Hrx Hin)
        as (r & evs & Hrun & Hw & Hq).
      { unfold L3RawSocket.dispatch. now rewrite H2, H3. }
      rewrite logged_logged in Hrun.
      eexists r, _, _. split; [exact Hrun |]. split; [reflexivity |].
      split; [intros ? [=] | split; [intros ? _ [=] |]].
      intros _ _. split; [reflexivity |]. split; [reflexivity |].
      split; [| exact Hq].
      unfold warnings in *. simpl. now rewrite Hw.
Qed.

Lemma dispatch_by_metadata_witness :
  exists r w' evs,
    L3RawSocket.recv Sample.conf 1500 (Sample.captured Sample.five_bytes Sample.sa_link)
      = (r, w') /\
    L3RawSocket.log w' = [] ++ evs /\
    warnings evs = 0%nat /\
    r = Return (Some (Layer "Raw" [Sample.b 3; Sample.b 4; Sample.b 5] NoPayload,
                      1700000000)).
Proof.
  destruct (dispatch_by_metadata Sample.conf 1500
              (Sample.captured Sample.five_bytes Sample.sa_link)
              Sample.five_bytes Sample.sa_link [])
    as (r & w' & evs & Hrun & Hlog & Hl2 & _).
  - lia.
  - reflexivity.
  - discriminate.
  - destruct (Hl2 Sample.Link2 eq_refl) as (_ & Hw & Hq).
    exists r, w', evs. split; [exact Hrun |]. split; [exact Hlog |].
    split; [exact Hw |].
    exact (proj1 (Hq (Layer "Link2" [Sample.b 1; Sample.b 2]
                        (Layer "Raw" [Sample.b 3; Sample.b 4; Sample.b 5] NoPayload))
                     eq_refl)).
Defined.

(** The unknown-type path, run: one warning, then the default class. *)
Example unknown_type_warns_once :
  L3RawSocket.recv Sample.conf 1500 (Sample.captured Sample.five_bytes Sample.sa_unknown)
  = (Return (Some (Layer "Link2" [Sample.b 1; Sample.b 2]
                     (Layer "Raw" [Sample.b 3; Sample.b 4; Sample.b 5] NoPayload),
                   1700000000)),
     L3RawSocket.logged
       (L3RawSocket.with_rx (Sample.captured Sample.five_bytes Sample.sa_unknown) [])
       [L3RawSocket.Warning "tun0" 9 7 "Link2";
        L3RawSocket.Dissect "Link2" Sample.five_bytes]).
Proof. reflexivity. Qed.

(** What lines 90-99 do with a decode that raises [e]: an interrupt goes
    through; with [conf.debug_dissector] set any exception goes through;
    otherwise the frame is [conf.raw_layer(pkt)] and, when the link-type
    registry chose the class, its payload. *)
Lemma decode_failure_handling conf x w raw0 sa rest cls lvl w1 e :
  0 <= x ->
  L3RawSocket.rx w = Return (raw0, sa) :: rest ->
  L3RawSocket.sll_pkttype sa <> L3RawSocket.PACKET_OUTGOING ->
  L3RawSocket.dispatch conf sa (L3RawSocket.with_rx w rest) = (Return (cls, lvl), w1) ->
  dissect cls (take (Z.to_nat x) raw0) = Raise e ->
  (e = KeyboardInterrupt ->
   fst (L3RawSocket.recv conf x w) = Raise KeyboardInterrupt) /\
  (debug_dissector conf = true ->
   fst (L3RawSocket.recv conf x w) = Raise e) /\
  (e <> KeyboardInterrupt -> debug_dissector conf = false ->
   forall r, dissect (raw_layer conf) (take (Z.to_nat x) raw0) = Return r ->
     fst (L3RawSocket.recv conf x w)
       = Return (Some (if lvl =? 2 then payload r else r,
                       L3RawSocket.last_packet_timestamp w1))).
Proof.
  intros Hx Hrx Hin Hd He.
  rewrite (L3_recv_incoming conf x w raw0 sa rest Hx Hrx Hin cls lvl w1 Hd).
  rewrite decode_run, He.
  split; [| split].
  - intros ->. reflexivity.
  - intros ->. destruct e; reflexivity.
  - intros Hne -> r Hr. destruct e; try contradiction; rewrite Hr; reflexivity.
Qed.

(** The three ways out of a failed decode, run: the exception goes through
    in strict mode, an interrupt goes through in lenient mode, and under the
    default dispatch the lenient result is the raw frame. *)
Example strict_failure_propagates :
  fst (L3RawSocket.recv Sample.strict_conf 1500
         (Sample.captured [Sample.b 9] Sample.sa_link))
  = Raise (OtherError "struct.error").
Proof. reflexivity. Qed.

Example interrupt_propagates :
  fst (L3RawSocket.recv Sample.interrupted_conf 1500
         (Sample.captured [Sample.b 9] Sample.sa_link))
  = Raise KeyboardInterrupt.
Proof. reflexivity. Qed.

Example lenient_default_failure_degrades :
  fst (L3RawSocket.recv Sample.conf 1500
         (Sample.captured [Sample.b 9] Sample.sa_unknown))
  = Return (Some (Layer "Raw" [Sample.b 9] NoPayload, 1700000000)).
Proof. reflexivity. Qed.

(** C7: the decode failures of [L3RawSocket.recv], lines 90-97.  When the
    class chosen by the dispatch raises [e] on the frame: if [e] is
    [KeyboardInterrupt] it goes through, whatever [conf.debug_dissector];
    if [conf.debug_dissector] is set [e] goes through; otherwise the guarded
    decode gives [conf.raw_layer(pkt)], the raw frame, and [recv] returns
    normally, with that frame or, when the link-type registry chose the
    class, with its payload (lines 98-99). *)
Theorem decode_failure_policy conf x w raw0 sa rest cls lvl w1 e :
  0 <= x ->
  L3RawSocket.rx w = Return (raw0, sa) :: rest ->
  L3RawSocket.sll_pkttype sa <> L3RawSocket.PACKET_OUTGOING ->
  L3RawSocket.dispatch conf sa (L3RawSocket.with_rx w rest) = (Return (cls, lvl), w1) ->
  dissect cls (take (Z.to_nat x) raw0) = Raise e ->
  (e = KeyboardInterrupt ->
   fst (L3RawSocket.decode conf cls (take (Z.to_nat x) raw0) w1) = Raise KeyboardInterrupt /\
   fst (L3RawSocket.recv conf x w) = Raise KeyboardInterrupt) /\
  (debug_dissector conf = true ->
   fst (L3RawSocket.decode conf cls (take (Z.to_nat x) raw0) w1) = Raise e /\
   fst (L3RawSocket.recv conf x w) = Raise e) /\
  (e <> KeyboardInterrupt -> debug_dissector conf = false ->
   fst (L3RawSocket.decode conf cls (take (Z.to_nat x) raw0) w1)
     = dissect (raw_layer conf) (take (Z.to_nat x) raw0) /\
   forall r, dissect (raw_layer conf) (take (Z.to_nat x) raw0) = Return r ->
     fst (L3RawSocket.recv conf x w)
       = Return (Some (if lvl =? 2 then payload r else r,
                       L3RawSocket.last_packet_timestamp w1))).
Proof.
  intros Hx Hrx Hin Hd He.
  destruct (decode_failure_handling conf x w raw0 sa rest cls lvl w1 e Hx Hrx Hin Hd He)
    as (Hki & Hstrict & Hlenient).
  split; [| split].
  - intros Hint. split; [| exact (Hki Hint)].
    rewrite decode_run, He. subst e. reflexivity.
  - intros Hdbg. split; [| exact (Hstrict Hdbg)].
    rewrite decode_run, He, Hdbg. destruct e; reflexivity.
  - intros Hne Hdbg. split; [| exact (Hlenient Hne Hdbg)].
    rewrite decode_run, He, Hdbg. destruct e; try reflexivity. contradiction.
Qed.

Lemma decode_failure_policy_witness :
  fst (L3RawSocket.decode Sample.conf Sample.Link2 (take (Z.to_nat 1500) [Sample.b 9])
         (L3RawSocket.logged
            (L3RawSocket.with_rx (Sample.captured [Sample.b 9] Sample.sa_unknown) [])
            [L3RawSocket.Warning "tun0" 9 7 "Link2"]))
    = dissect (raw_layer Sample.conf) (take (Z.to_nat 1500) [Sample.b 9]) /\
  fst (L3RawSocket.recv Sample.conf 1500 (Sample.captured [Sample.b 9] Sample.sa_unknown))
    = Return (Some (Layer "Raw" [Sample.b 9] NoPayload, 1700000000)).
Proof.
  destruct (decode_failure_policy Sample.conf 1500
              (Sample.captured [Sample.b 9] Sample.sa_unknown) [Sample.b 9]
              Sample.sa_unknown [] Sample.Link2 3
              (L3RawSocket.logged
                 (L3RawSocket.with_rx (Sample.captured [Sample.b 9] Sample.sa_unknown) [])
                 [L3RawSocket.Warning "tun0" 9 7 "Link2"])
              (OtherError "struct.error"))
    as (_ & _ & Hlenient); [lia | reflexivity | discriminate | reflexivity | reflexivity |].
  destruct Hlenient as (Hdec & Hrecv); [discriminate | reflexivity |].
  split; [exact Hdec |].
  exact (Hrecv (Layer "Raw" [Sample.b 9] NoPayload) eq_refl).
Defined.

(** With a registered link type the unwrap of lines 98-99 applies to the
    raw frame of line 97 as well: what [recv] returns is then the payload
    of that raw frame, the empty terminal layer. *)
Example lenient_link_failure_returns_empty :
  dissect Sample.Link2 [Sample.b 9] = Raise (OtherError "struct.error") /\
  debug_dissector Sample.conf = false /\
  L3RawSocket.recv Sample.conf 1500 (Sample.captured [Sample.b 9] Sample.sa_link)
  = (Return (Some (NoPayload, 1700000000)),
     L3RawSocket.logged
       (L3RawSocket.with_rx (Sample.captured [Sample.b 9] Sample.sa_link) [])
       [L3RawSocket.Dissect "Link2" [Sample.b 9];
        L3RawSocket.Dissect "Raw" [Sample.b 9]]) /\
  dissect (raw_layer Sample.conf) [Sample.b 9]
  = Return (Layer "Raw" [Sample.b 9] NoPayload).
Proof. repeat split. Qed.

(** ** [L3RawSocket.send] *)

(** C9: [L3RawSocket.send] serializes the frame, stamps [sent_time] with
    the clock and calls [outs.sendto(sx, (x.dst, 0))]; when that call raises
    [socket.error] the error is logged with [log_runtime.error] and the
    method returns.  No [socket.error] ever reaches the caller. *)
Theorem send_logs_socket_errors w x :
  (forall sx d,
     L3RawSocket.str x = Return sx ->
     L3RawSocket.dst x = Some d ->
     let x' := L3RawSocket.Sendable (L3RawSocket.str x) (L3RawSocket.dst x)
                                    (Some (L3RawSocket.clock w)) in
     (forall n,
        L3RawSocket.outs_sendto w sx (d, 0) = Return n ->
        L3RawSocket.send (w, x)
          = (Return tt, (L3RawSocket.logged w [L3RawSocket.Sendto sx (d, 0)], x'))) /\
     (forall args,
        L3RawSocket.outs_sendto w sx (d, 0) = Raise (SocketError args) ->
        L3RawSocket.send (w, x)
          = (Return tt,
             (L3RawSocket.logged w [L3RawSocket.Sendto sx (d, 0);
                                    L3RawSocket.LogError (SocketError args)], x')))) /\
  (forall args, fst (L3RawSocket.send (w, x)) <> Raise (SocketError args)).
Proof.
  split.
  - intros sx d Hstr Hdst x'. subst x'.
    unfold L3RawSocket.send, try_except, bind, get, lift, modify, ret, raise.
    rewrite Hstr, Hdst. cbn [L3RawSocket.dst].
    split.
    + intros n Hn. cbn [L3RawSocket.outs_sendto L3RawSocket.logged]. unfold lift.
      now rewrite Hn.
    + intros args Hn. cbn [L3RawSocket.outs_sendto L3RawSocket.logged]. unfold lift.
      rewrite Hn. cbn [L3RawSocket.is_socket_error].
      now rewrite logged_logged.
  - intros args.
    unfold L3RawSocket.send, try_except.
    match goal with
    | |- context [match ?b (w, x) with _ => _ end] => destruct (b (w, x)) as [[[] | e] s]
    end.
    + discriminate.
    + destruct e; cbn [L3RawSocket.is_socket_error]; discriminate.
Qed.

Lemma send_logs_socket_errors_witness :
  L3RawSocket.send (Sample.refusing, Sample.ip_frame)
  = (Return tt,
     (L3RawSocket.logged Sample.refusing
        [L3RawSocket.Sendto [Sample.b 69; Sample.b 0; Sample.b 0; Sample.b 20]
                            ("10.0.0.1"%string, 0);
         L3RawSocket.LogError (SocketError (1, "Operation not permitted"%string))],
      L3RawSocket.Sendable (L3RawSocket.str Sample.ip_frame)
                           (L3RawSocket.dst Sample.ip_frame)
                           (Some (L3RawSocket.clock Sample.refusing)))).
Proof.
  apply (proj2 (proj1 (send_logs_socket_errors Sample.refusing Sample.ip_frame)
                  [Sample.b 69; Sample.b 0; Sample.b 0; Sample.b 20]
                  "10.0.0.1"%string eq_refl eq_refl)
           (1, "Operation not permitted"%string)).
  reflexivity.
Defined.

(** ** [SuperSocket.close] *)

Ltac run_close :=
  unfold SuperSocket.close, bind, get, SuperSocket.set_closed, modify,
    SuperSocket.getattr_ins, SuperSocket.getattr_outs, ret,
    SuperSocket.call_fileno, SuperSocket.call_close, raise, live;
  cbn -[Z.eqb];
  repeat (first [ case_decide
                | match goal with
                  | |- context [match ?f ?id with Return _ => _ | Raise _ => _ end] =>
                      is_var f; destruct (f id) eqn:?
                  end
                | match goal with
                  | |- context [?a =? ?b] => destruct (Z.eqb_spec a b)
                  end ];
          cbn -[Z.eqb]).

(** One [close()] on a handle whose two attributes exist and whose
    channels answer [fileno()]. *)
Lemma close_once w :
  SuperSocket.ins (SuperSocket.self w) <> SuperSocket.Unbound ->
  SuperSocket.outs (SuperSocket.self w) <> SuperSocket.Unbound ->
  fileno_answers w ->
  exists w',
    SuperSocket.close w = (Return tt, w') /\
    SuperSocket.close_calls w' = SuperSocket.close_calls w ++ closes_expected w /\
    SuperSocket.closed (SuperSocket.self w') = true /\
    (SuperSocket.closed (SuperSocket.self w) = true -> w' = w).
Proof.
  destruct w as [[cl i o] fn fc calls]. unfold fileno_answers. cbn.
  intros Hi Ho [Hao Hai].
  unfold closes_expected. cbn.
  destruct cl.
  { exists (SuperSocket.World (SuperSocket.Handle true i o) fn fc calls).
    rewrite app_nil_r. now run_close. }
  destruct i as [| | i]; [contradiction | |];
    (destruct o as [| | o]; [contradiction | |]);
    run_close.
  all: try (exfalso; cbn in *; intuition (congruence || discriminate || lia)).
  all: try (exfalso; destruct (Hai _ eq_refl) as [? ?]; congruence).
  all: try (exfalso; destruct (Hao _ eq_refl ltac:(congruence)) as [? ?]; congruence).
  all: try (eexists; split; [reflexivity |]; cbn;
            rewrite ?app_nil_r, <- ?app_assoc; repeat split; try reflexivity;
            try (intros [=]; fail)).
Qed.

Lemma close_times_closed n : forall w,
  SuperSocket.closed (SuperSocket.self w) = true ->
  SuperSocket.close_times n w = (Return tt, w).
Proof.
  induction n as [| n IH]; intros w Hc; [reflexivity |].
  cbn [SuperSocket.close_times]. unfold bind.
  assert (SuperSocket.close w = (Return tt, w)) as ->.
  { unfold SuperSocket.close, bind, get. now rewrite Hc. }
  now apply IH.
Qed.





(** The guards at work: an output that is [None] and an input that is
    closed and answers [-1] are left alone, whatever the number of calls. *)
Example close_leaves_dead_channels :
  SuperSocket.close_times 3
    (SuperSocket.World (SuperSocket.Handle false (SuperSocket.Ref 0) SuperSocket.PyNone)
                       (fun _ => Return (-1)) (fun _ => Return (-1)) [])
  = (Return tt,
     SuperSocket.World (SuperSocket.Handle true (SuperSocket.Ref 0) SuperSocket.PyNone)
                       (fun _ => Return (-1)) (fun _ => Return (-1)) []).
Proof. reflexivity. Qed.



(** ** Frames in order through [StreamSocket] *)

Lemma wires_app fs gs : wires (fs ++ gs) = wires fs ++ wires gs.
Proof. unfold wires. now rewrite map_app, concat_app. Qed.

Lemma wires_nil_inv fs :
  Forall (fun f => fwire f <> []) fs -> wires fs = [] -> fs = [].
Proof.
  intros Hne Hw. destruct fs as [| f fs]; [reflexivity |].
  inversion Hne; subst. unfold wires in Hw. simpl in Hw.
  apply app_eq_nil in Hw as [Hw _]. contradiction.
Qed.

Lemma rebuild_descend p : forall up, rebuild (descend up p) NoPayload = rebuild up p.
Proof.
  induction p as [| c l pl IH]; intros up; simpl; [reflexivity |].
  rewrite IH. reflexivity.
Qed.

Lemma getlayer_from_chain_app cls pad p : forall up,
  getlayer_from up p cls = None ->
  getlayer_from up (chain_app p pad) cls = getlayer_from (descend up p) pad cls.
Proof.
  induction p as [| c l pl IH]; intros up H; simpl in *; [reflexivity |].
  destruct (decide (c = cls)); [discriminate |]. now apply IH.
Qed.

Lemma chain_app_NoPayload p : chain_app p NoPayload = p.
Proof. induction p as [| c l pl IH]; simpl; [reflexivity | now rewrite IH]. Qed.

Lemma descend_truthy p : truthy p = true -> exists u up, descend [] p = u :: up.
Proof.
  destruct p as [| c l pl]; [discriminate |]. intros _. simpl.
  assert (forall q up0, up0 <> [] -> exists u up, descend up0 q = u :: up) as H.
  { induction q as [| c' l' pl' IH]; intros up0 Hne; simpl.
    - destruct up0; [contradiction | eauto].
    - apply IH. discriminate. }
  apply H. discriminate.
Qed.

(** Decoding a well-formed frame followed by anything gives the frame, and
    the count of lines 138-140 is the length of the frame. *)
Lemma strip_well_formed conf basecls f r :
  well_formed conf basecls f ->
  exists q,
    dissect basecls (fwire f ++ r) = Return q /\
    strip_padding conf q (len (fwire f ++ r)) = (fpkt f, len (fwire f)).
Proof.
  intros (_ & Htr & Hnopad & Hdec).
  destruct (Hdec r) as (pad & Hq & Hw & Hpad).
  exists (chain_app (fpkt f) pad). split; [exact Hq |].
  unfold strip_padding, getlayer.
  rewrite (getlayer_from_chain_app _ pad _ [] Hnopad).
  destruct Hpad as [-> | (l & pl & ->)].
  - simpl in Hw. subst r. simpl. now rewrite chain_app_NoPayload, app_nil_r.
  - simpl. destruct (decide (padding_layer conf = padding_layer conf)); [| contradiction].
    destruct (descend_truthy _ Htr) as (u & up & Hd).
    unfold underlayer, del_underlayer_payload. cbn [above here].
    rewrite Hd. cbn [head]. rewrite <- Hd, rebuild_descend. cbn [rebuild].
    f_equal. rewrite pad_walk_plen, len_app. unfold plen. rewrite <- Hw.
    simpl. lia.
Qed.

Lemma block_until_data_empty segs : forall q,
  fst (block_until_data q segs) = [] -> snd (block_until_data q segs) = [].
Proof.
  induction segs as [| seg segs IH]; intros q H.
  - destruct q; reflexivity.
  - destruct q as [| b q]; simpl in *; [now apply IH | discriminate].
Qed.

Lemma block_until_data_aligned segs : forall q0,
  Forall (fun f => fwire f <> []) (q0 ++ concat segs) ->
  exists q0' segs',
    block_until_data (wires q0) (map wires segs) = (wires q0', map wires segs') /\
    q0 ++ concat segs = q0' ++ concat segs'.
Proof.
  induction segs as [| seg segs IH]; intros q0 Hne.
  - exists q0, []. split; [| reflexivity]. simpl. destruct (wires q0); reflexivity.
  - simpl. destruct (wires q0) as [| b0 w0] eqn:Hw.
    + apply wires_nil_inv in Hw; [| now apply Forall_app in Hne as [? _]]. subst q0.
      simpl in Hne. destruct (IH seg Hne) as (q0' & segs' & Hb & Heq).
      exists q0', segs'. split; [exact Hb | exact Heq].
    + exists q0, (seg :: segs). rewrite Hw. split; reflexivity.
Qed.

Lemma arrive_aligned c fs :
  Forall (fun f => fwire f <> []) fs ->
  aligned c fs -> aligned (arrive c) fs.
Proof.
  intros Hne (q0 & segs & Hq & Hi & ->).
  destruct c as [q inf]. simpl in Hq, Hi. subst q inf.
  unfold arrive. cbn [rxq inflight].
  destruct segs as [| seg segs]; cbn [map].
  - assert (block_until_data (wires q0) [] = (wires q0, [])) as ->
      by (destruct (wires q0); reflexivity).
    exists q0, []. auto.
  - rewrite <- wires_app.
    assert (Hne' : Forall (fun f => fwire f <> []) ((q0 ++ seg) ++ concat segs))
      by (now rewrite <- app_assoc).
    destruct (block_until_data_aligned segs (q0 ++ seg) Hne') as (q0' & segs' & Hb & Heq).
    rewrite Hb. exists q0', segs'. cbn [rxq inflight concat].
    split; [reflexivity |]. split; [reflexivity |].
    now rewrite app_assoc.
Qed.

Lemma concat_map_wires_nil segs :
  concat segs = [] -> concat (map wires segs) = [].
Proof.
  induction segs as [| seg segs IH]; intros H; [reflexivity |].
  simpl in *. apply app_eq_nil in H as [-> H]. simpl. now apply IH.
Qed.

(** A blocking read on an aligned stream with frames left finds data. *)
Lemma arrive_nonempty c fs :
  Forall (fun f => fwire f <> []) fs ->
  aligned c fs -> fs <> [] -> rxq (arrive c) <> [].
Proof.
  intros Hne Hal Hfs Hempty.
  assert (Hp : pending c = []).
  { rewrite <- arrive_pending. unfold pending. rewrite Hempty. simpl.
    unfold arrive in *. destruct c as [q inf]. cbn [rxq inflight] in *.
    destruct inf as [| seg inf].
    - pose proof (block_until_data_empty [] q) as H.
      destruct (block_until_data q []) as [q' segs']. simpl in *. now rewrite H.
    - pose proof (block_until_data_empty inf (q ++ seg)) as H.
      destruct (block_until_data (q ++ seg) inf) as [q' segs']. simpl in *.
      now rewrite H. }
  destruct Hal as (q0 & segs & Hq & Hi & ->).
  unfold pending in Hp. rewrite Hq, Hi in Hp.
  apply app_eq_nil in Hp as [Hp1 Hp2].
  apply Forall_app in Hne as [Hne1 Hne2].
  apply wires_nil_inv in Hp1; [| exact Hne1]. subst q0. simpl in Hfs.
  assert (wires (concat segs) = concat (map wires segs)) as Hc.
  { clear. induction segs as [| s segs IH]; [reflexivity |].
    simpl. now rewrite wires_app, IH. }
  rewrite <- Hc in Hp2. apply wires_nil_inv in Hp2; [| exact Hne2]. contradiction.
Qed.

Lemma aligned_head c f fs :
  aligned c (f :: fs) -> rxq c <> [] ->
  exists rest, rxq c = fwire f ++ rest /\ aligned (Stream rest (inflight c)) fs.
Proof.
  intros (q0 & segs & Hq & Hi & Hfs) Hne.
  destruct q0 as [| f' q0].
  - rewrite Hq in Hne. contradiction.
  - simpl in Hfs. inversion Hfs; subst f' fs.
    exists (wires q0). split; [exact Hq |].
    exists q0, segs. auto.
Qed.

Lemma aligned_nil_pending c : aligned c [] -> pending c = [].
Proof.
  intros (q0 & segs & Hq & Hi & Hfs).
  symmetry in Hfs. apply app_eq_nil in Hfs as [-> Hs].
  unfold pending. rewrite Hq, Hi. simpl. now apply concat_map_wires_nil.
Qed.

Section InOrder.

Variables (conf : Conf) (basecls : PacketClass) (x : Z).

Lemma well_formed_nonempty fs :
  Forall (well_formed conf basecls) fs -> Forall (fun f => fwire f <> []) fs.
Proof.
  intros Hwf. eapply Forall_impl; [exact Hwf |].
  intros f (H & _). exact H.
Qed.

(** One call on an aligned stream returns the first frame and leaves the
    stream aligned on the others. *)
Lemma recv_one_frame c f fs :
  Forall (well_formed conf basecls) (f :: fs) ->
  len (fwire f) <= x ->
  aligned c (f :: fs) ->
  exists c',
    StreamSocket.recv conf basecls x c = (Return (fpkt f), c') /\ aligned c' fs.
Proof.
  intros Hwf Hx Hal.
  pose proof (well_formed_nonempty _ Hwf) as Hne.
  assert (Hcons : f :: fs <> []) by discriminate.
  pose proof (arrive_aligned c _ Hne Hal) as Hal1.
  pose proof (arrive_nonempty c _ Hne Hal Hcons) as Hq1.
  destruct (aligned_head _ _ _ Hal1 Hq1) as (rest & Hrx & _).
  pose proof (arrive_aligned _ _ Hne Hal1) as Hal2.
  pose proof (arrive_nonempty _ _ Hne Hal1 Hcons) as Hq2.
  destruct (aligned_head _ _ _ Hal2 Hq2) as (rest2 & Hrx2 & Hal3).
  inversion Hwf as [| ? ? Hwf_f _]; subst.
  pose proof (len_nonneg (fwire f)) as Hlen0.
  set (r := take (Z.to_nat x - length (fwire f)) rest).
  assert (Hpeek : sock_recv x MSG_PEEK c = (Return (fwire f ++ r), arrive c)).
  { unfold sock_recv. destruct (Z.ltb_spec x 0) as [Hlt | _]; [lia |].
    rewrite Hrx, take_app_ge by (unfold len in Hx; lia). reflexivity. }
  destruct (strip_well_formed conf basecls f r Hwf_f) as (q & Hdq & Hstrip).
  unfold StreamSocket.recv.
  rewrite (bind_Return _ _ _ _ _ Hpeek).
  destruct (Z.eqb_spec (len (fwire f ++ r)) 0) as [H0 | _].
  { apply len_nil_iff in H0. apply app_eq_nil in H0 as [H0 _].
    destruct Hwf_f as (Hf & _). contradiction. }
  unfold lift at 1. unfold bind at 1. rewrite Hdq, Hstrip.
  exists (Stream rest2 (inflight (arrive (arrive c)))).
  split; [| exact Hal3].
  unfold bind, sock_recv, ret.
  destruct (Z.ltb_spec (len (fwire f)) 0) as [Hlt | _]; [lia |].
  rewrite Hrx2. unfold len. rewrite Nat2Z.id, drop_app_length. reflexivity.
Qed.

Lemma recv_times_aligned fs : forall c,
  Forall (well_formed conf basecls) fs ->
  Forall (fun f => len (fwire f) <= x) fs ->
  aligned c fs ->
  exists c',
    StreamSocket.recv_times conf basecls x (length fs) c = (Return (map fpkt fs), c') /\
    aligned c' [].
Proof.
  induction fs as [| f fs IH]; intros c Hwf Hx Hal.
  - exists c. split; [reflexivity | exact Hal].
  - inversion Hx as [| ? ? Hxf Hxfs]; subst.
    destruct (recv_one_frame c f fs Hwf Hxf Hal) as (c1 & Hrun & Hal1).
    inversion Hwf as [| ? ? _ Hwfs]; subst.
    destruct (IH c1 Hwfs Hxfs Hal1) as (c' & Hrest & Hal').
    exists c'. split; [| exact Hal'].
    cbn [StreamSocket.recv_times length map].
    rewrite (bind_Return _ _ _ _ _ Hrun), (bind_Return _ _ _ _ _ Hrest).
    reflexivity.
Qed.

(** C3, amended: let [N] frames, each well formed for the decoder and no
    longer than the peek size, be concatenated and delivered in segments
    each of which holds whole frames.  Then [N] calls of
    [StreamSocket.recv] in a row return the [N] frames in order, and no
    byte is left in the stream. *)
Theorem frames_in_order (segs : list (list frame)) :
  Forall (well_formed conf basecls) (concat segs) ->
  Forall (fun f => len (fwire f) <= x) (concat segs) ->
  exists c',
    StreamSocket.recv_times conf basecls x (length (concat segs))
        (Stream [] (map wires segs))
      = (Return (map fpkt (concat segs)), c') /\
    pending c' = [].
Proof.
  intros Hwf Hx.
  destruct (recv_times_aligned (concat segs)
              (Stream [] (map wires segs)) Hwf Hx) as (c' & Hrun & Hal).
  - exists [], segs. auto.
  - exists c'. split; [exact Hrun | now apply aligned_nil_pending].
Qed.

End InOrder.

Lemma frameA_well_formed : well_formed Sample.conf Sample.LenRecord Sample.frameA.
Proof.
  split; [discriminate |]. split; [reflexivity |]. split; [reflexivity |].
  intros r. exists (Sample.trailing r).
  split; [reflexivity |].
  destruct r as [| b0 r]; simpl.
  - split; [reflexivity | now left].
  - rewrite app_nil_r. split; [reflexivity | right; eauto].
Qed.

Lemma frames_in_order_witness :
  exists c',
    StreamSocket.recv_times Sample.conf Sample.LenRecord 1500 3
        (Stream [] (map wires [[Sample.frameA; Sample.frameA]; [Sample.frameA]]))
      = (Return [fpkt Sample.frameA; fpkt Sample.frameA; fpkt Sample.frameA], c') /\
    pending c' = [].
Proof.
  apply (frames_in_order Sample.conf Sample.LenRecord 1500
           [[Sample.frameA; Sample.frameA]; [Sample.frameA]]).
  - repeat (apply Forall_cons; split; [exact frameA_well_formed |]).
    apply Forall_nil_2.
  - repeat (apply Forall_cons; split; [vm_compute; discriminate |]).
    apply Forall_nil_2.
Defined.

(** C3 as stated fails when a segment ends inside a frame: the frame
    [02 0a 0b] is well formed and arrives as [02 0a] then [0b]; the first
    call decodes the two bytes it peeks, returns a frame that is not the
    one sent, and leaves a byte of it in the stream. *)
Lemma cut_frame_not_returned :
  well_formed Sample.conf Sample.LenRecord Sample.frameA /\
  len (fwire Sample.frameA) <= 1500 /\
  pending Sample.cut_delivery = wires [Sample.frameA] /\
  StreamSocket.recv_times Sample.conf Sample.LenRecord 1500 1 Sample.cut_delivery
    = (Return [Layer "LenRecord" [Sample.b 2; Sample.b 10] NoPayload],
       Stream [Sample.b 11] []) /\
  [Layer "LenRecord" [Sample.b 2; Sample.b 10] NoPayload] <> map fpkt [Sample.frameA] /\
  pending (Stream [Sample.b 11] []) <> [].
Proof.
  split; [exact frameA_well_formed |].
  split; [vm_compute; discriminate |].
  split; [reflexivity |]. split; [reflexivity |].
  split; discriminate.
Qed.

(** * More of the file *)

(** ** [StreamSocket.recv]: failures and the default class *)

(** X1: when the class raises on the peeked bytes, [StreamSocket.recv]
    raises the same exception and has consumed nothing: every byte is
    still in the stream. *)
Theorem stream_decode_failure_consumes_nothing conf basecls x c data c1 e :
  sock_recv x MSG_PEEK c = (Return data, c1) ->
  data <> [] ->
  dissect basecls data = Raise e ->
  StreamSocket.recv conf basecls x c = (Raise e, c1) /\
  pending c1 = pending c.
Proof.
  intros Hpeek Hne Hdec. split.
  - unfold StreamSocket.recv. rewrite (bind_Return _ _ _ _ _ Hpeek).
    destruct (Z.eqb_spec (len data) 0) as [H0 | _].
    { apply len_nil_iff in H0. contradiction. }
    unfold lift at 1. unfold bind at 1. now rewrite Hdec.
  - exact (sock_recv_peek_pending _ _ _ _ Hpeek).
Qed.

Lemma stream_decode_failure_consumes_nothing_witness :
  StreamSocket.recv Sample.conf Sample.StrictRecord 1500
      (Stream [] [[Sample.b 3; Sample.b 7]])
    = (Raise (OtherError "struct.error"), Stream [Sample.b 3; Sample.b 7] []) /\
  pending (Stream [Sample.b 3; Sample.b 7] [])
    = pending (Stream [] [[Sample.b 3; Sample.b 7]]).
Proof.
  apply (stream_decode_failure_consumes_nothing Sample.conf Sample.StrictRecord 1500
           (Stream [] [[Sample.b 3; Sample.b 7]]) [Sample.b 3; Sample.b 7]);
    [reflexivity | discriminate | reflexivity].
Defined.

(** X2: a [StreamSocket] built without [basecls] decodes with
    [conf.raw_layer]; when that class keeps the whole string in one layer
    that is not the padding class, every call returns all the bytes the peek
    saw as one frame and consumes exactly them: the frames are the reads. *)
Theorem stream_default_class_takes_the_read conf sock h x c data c1 :
  (forall d, dissect (raw_layer conf) d
             = Return (Layer (name (raw_layer conf)) d NoPayload)) ->
  name (raw_layer conf) <> padding_layer conf ->
  sock_recv x MSG_PEEK c = (Return data, c1) ->
  data <> [] ->
  exists c',
    StreamSocket.recv conf
        (Constructors.basecls (Constructors.StreamSocket__init__ conf sock None h)) x c
      = (Return (Layer (name (raw_layer conf)) data NoPayload), c') /\
    pending c' = drop (length data) (pending c).
Proof.
  intros Hraw Hname Hpeek Hne. cbn [Constructors.StreamSocket__init__ Constructors.basecls].
  assert (Hg : getlayer (Layer (name (raw_layer conf)) data NoPayload)
                        (padding_layer conf) = None).
  { unfold getlayer. simpl.
    destruct (decide (name (raw_layer conf) = padding_layer conf)); [contradiction |].
    reflexivity. }
  assert (HP : padding_length conf (Layer (name (raw_layer conf)) data NoPayload) = 0).
  { unfold padding_length. now rewrite Hg. }
  destruct (StreamSocket_recv_run conf (raw_layer conf) x c data c1 _ Hpeek Hne (Hraw data))
    as (c' & Hrun & Hpend).
  { rewrite HP. apply len_nonneg. }
  exists c'. split.
  - rewrite Hrun. unfold strip_padding. now rewrite Hg.
  - rewrite Hpend, HP, Z.sub_0_r. unfold len. now rewrite Nat2Z.id.
Qed.

Lemma stream_default_class_takes_the_read_witness :
  exists c',
    StreamSocket.recv Sample.conf
        (Constructors.basecls
           (Constructors.StreamSocket__init__ Sample.conf (SuperSocket.Ref 0) None
              Constructors.blank)) 1500
        (Stream [] [Sample.record_and_more])
      = (Return (Layer (name (raw_layer Sample.conf)) Sample.record_and_more NoPayload), c') /\
    pending c' = drop (length Sample.record_and_more)
                      (pending (Stream [] [Sample.record_and_more])).
Proof.
  apply (stream_default_class_takes_the_read Sample.conf (SuperSocket.Ref 0)
           Constructors.blank 1500 (Stream [] [Sample.record_and_more])
           Sample.record_and_more (Stream Sample.record_and_more []));
    [reflexivity | discriminate | reflexivity | discriminate].
Defined.

(** X3: when the class makes the padding layer the root of a frame that
    holds every peeked byte, [StreamSocket.recv] returns the frame and
    consumes nothing, so the stream does not advance. *)
Theorem stream_root_padding_stalls conf basecls x c data c1 l pl :
  sock_recv x MSG_PEEK c = (Return data, c1) ->
  data <> [] ->
  dissect basecls data = Return (Layer (padding_layer conf) l pl) ->
  wire (Layer (padding_layer conf) l pl) = data ->
  exists c',
    StreamSocket.recv conf basecls x c
      = (Return (Layer (padding_layer conf) l pl), c') /\
    pending c' = pending c.
Proof.
  intros Hpeek Hne Hdec Hwire.
  assert (HP : padding_length conf (Layer (padding_layer conf) l pl) = len data).
  { unfold padding_length, getlayer. simpl.
    destruct (decide (padding_layer conf = padding_layer conf)); [| contradiction].
    cbn [here]. unfold plen. now rewrite Hwire. }
  destruct (StreamSocket_recv_run conf basecls x c data c1 _ Hpeek Hne Hdec)
    as (c' & Hrun & Hpend).
  { rewrite HP. lia. }
  exists c'. split.
  - rewrite Hrun. now rewrite strip_padding_root.
  - rewrite Hpend, HP, Z.sub_diag. reflexivity.
Qed.

Lemma stream_root_padding_stalls_witness :
  exists c',
    StreamSocket.recv Sample.conf Sample.Padding 1500 (Stream [] [[Sample.b 1; Sample.b 2]])
      = (Return (Layer (padding_layer Sample.conf) [Sample.b 1; Sample.b 2] NoPayload), c') /\
    pending c' = pending (Stream [] [[Sample.b 1; Sample.b 2]]).
Proof.
  apply (stream_root_padding_stalls Sample.conf Sample.Padding 1500
           (Stream [] [[Sample.b 1; Sample.b 2]]) [Sample.b 1; Sample.b 2]
           (Stream [Sample.b 1; Sample.b 2] []));
    [reflexivity | discriminate | reflexivity | reflexivity].
Defined.

(** ** [SuperSocket.recv] and [SuperSocket.send] *)



(** X5: [SuperSocket.send] has no handler: what [outs.send] answers, an
    exception included, is what the caller gets, and the frame has been
    stamped by then if it has a [sent_time] attribute; when the
    serialization raises, nothing is written and nothing is stamped. *)
Theorem supersocket_send_lets_errors_through w x :
  (forall sx,
     SuperSocket.str x = Return sx ->
     SuperSocket.send (w, x)
     = (SuperSocket.outs_send w sx,
        (SuperSocket.OutWorld (SuperSocket.clock w) (SuperSocket.outs_send w)
                              (SuperSocket.sends w ++ [sx]),
         match SuperSocket.sent_time x with
         | Some _ => SuperSocket.Sendable (SuperSocket.str x) (Some (SuperSocket.clock w))
         | None => x
         end))) /\
  (forall e,
     SuperSocket.str x = Raise e ->
     SuperSocket.send (w, x) = (Raise e, (w, x))).
Proof.
  split.
  - intros sx Hstr.
    unfold SuperSocket.send, bind, get, lift, modify, ret. rewrite Hstr.
    destruct (SuperSocket.sent_time x); cbn;
      destruct (SuperSocket.outs_send w sx); rewrite ?Hstr; reflexivity.
  - intros e Hstr.
    unfold SuperSocket.send, bind, get, lift. now rewrite Hstr.
Qed.

Lemma supersocket_send_lets_errors_through_witness :
  SuperSocket.send (Sample2.out_ok, Sample2.string_frame)
  = (Return 3,
     (SuperSocket.OutWorld 1700000001 (SuperSocket.outs_send Sample2.out_ok)
                           [[Sample.b 71; Sample.b 69; Sample.b 84]],
      Sample2.string_frame)).
Proof.
  apply (proj1 (supersocket_send_lets_errors_through Sample2.out_ok Sample2.string_frame)
           [Sample.b 71; Sample.b 69; Sample.b 84]).
  reflexivity.
Defined.

(** ** [L3RawSocket]: what gets out *)

(** X6: with [conf.debug_dissector] off and a [conf.raw_layer] that accepts
    every string, the only exception [L3RawSocket.recv] lets out once a
    frame has been read is [KeyboardInterrupt]. *)
Theorem lenient_recv_raises_only_interrupt conf x w raw0 sa rest e :
  0 <= x ->
  L3RawSocket.rx w = Return (raw0, sa) :: rest ->
  debug_dissector conf = false ->
  (forall s, exists p, dissect (raw_layer conf) s = Return p) ->
  fst (L3RawSocket.recv conf x w) = Raise e ->
  e = KeyboardInterrupt.
Proof.
  intros Hx Hrx Hdbg Hraw.
  destruct (Z.eq_dec (L3RawSocket.sll_pkttype sa) L3RawSocket.PACKET_OUTGOING)
    as [Hout | Hin].
  { rewrite (proj1 (outgoing_returns_None conf x w raw0 sa rest Hx Hrx Hout)).
    discriminate. }
  assert (Hd : exists cls lvl w1,
             L3RawSocket.dispatch conf sa (L3RawSocket.with_rx w rest)
             = (Return (cls, lvl), w1)).
  { unfold L3RawSocket.dispatch.
    destruct (l2types conf !! L3RawSocket.sll_hatype sa); [eexists _, _, _; reflexivity |].
    destruct (l3types conf !! L3RawSocket.sll_protocol sa); eexists _, _, _; reflexivity. }
  destruct Hd as (cls & lvl & w1 & Hd).
  rewrite (L3_recv_incoming conf x w raw0 sa rest Hx Hrx Hin cls lvl w1 Hd).
  rewrite decode_run, Hdbg.
  destruct (dissect cls (take (Z.to_nat x) raw0)) as [q | e0]; [discriminate |].
  destruct (Hraw (take (Z.to_nat x) raw0)) as [p Hp].
  destruct e0; rewrite ?Hp; cbn; congruence.
Qed.

Lemma lenient_recv_raises_only_interrupt_witness :
  fst (L3RawSocket.recv Sample.interrupted_conf 1500
         (Sample.captured [Sample.b 9] Sample.sa_link)) = Raise KeyboardInterrupt /\
  KeyboardInterrupt = KeyboardInterrupt.
Proof.
  split; [reflexivity |].
  apply (lenient_recv_raises_only_interrupt Sample.interrupted_conf 1500
           (Sample.captured [Sample.b 9] Sample.sa_link) [Sample.b 9] Sample.sa_link []);
    [lia | reflexivity | reflexivity | | reflexivity].
  intros s. exists (Layer "Raw" s NoPayload). reflexivity.
Defined.

(** X7: in [L3RawSocket.send] the handler also covers the serialization: a
    [socket.error] raised by [str(x)] is logged and swallowed with nothing
    sent and the frame unstamped, any other exception of [str(x)] goes
    through, and a frame without [dst] raises [AttributeError] after it has
    been stamped, with nothing sent or logged. *)
Theorem l3_send_before_the_write w x :
  (forall a,
     L3RawSocket.str x = Raise (SocketError a) ->
     L3RawSocket.send (w, x)
     = (Return tt, (L3RawSocket.logged w [L3RawSocket.LogError (SocketError a)], x))) /\
  (forall e,
     L3RawSocket.str x = Raise e ->
     L3RawSocket.is_socket_error e = false ->
     L3RawSocket.send (w, x) = (Raise e, (w, x))) /\
  (forall sx,
     L3RawSocket.str x = Return sx ->
     L3RawSocket.dst x = None ->
     L3RawSocket.send (w, x)
     = (Raise (AttributeError "dst"),
        (w, L3RawSocket.Sendable (L3RawSocket.str x) None (Some (L3RawSocket.clock w))))).
Proof.
  split; [| split].
  - intros a Hstr.
    unfold L3RawSocket.send, try_except, bind, get, lift, modify. now rewrite Hstr.
  - intros e Hstr He.
    unfold L3RawSocket.send, try_except, bind, get, lift, modify.
    now rewrite Hstr, He.
  - intros sx Hstr Hdst.
    unfold L3RawSocket.send, try_except, bind, get, lift, modify, raise.
    now rewrite Hstr, Hdst.
Qed.

Lemma l3_send_before_the_write_witness :
  L3RawSocket.send
    (Sample.refusing, L3RawSocket.Sendable (Return [Sample.b 69]) None None)
  = (Raise (AttributeError "dst"),
     (Sample.refusing,
      L3RawSocket.Sendable (Return [Sample.b 69]) None
                           (Some (L3RawSocket.clock Sample.refusing)))).
Proof.
  apply (proj2 (proj2 (l3_send_before_the_write Sample.refusing
                         (L3RawSocket.Sendable (Return [Sample.b 69]) None None)))
           [Sample.b 69]); reflexivity.
Defined.

(** ** [close] after the constructors *)

Lemma close_sets_closed w :
  SuperSocket.closed (SuperSocket.self (snd (SuperSocket.close w))) = true.
Proof.
  destruct w as [[cl i o] fn calls].
  destruct cl; destruct i as [| | i]; destruct o as [| | o]; run_close; reflexivity.
Qed.

(** X8: [close()] raises at most once.  After a first call, whether it
    returned or raised, the handle is marked closed, and every later call
    returns without touching a channel. *)
Theorem close_raises_at_most_once w n :
  SuperSocket.close_times n (snd (SuperSocket.close w))
  = (Return tt, snd (SuperSocket.close w)).
Proof. apply close_times_closed, close_sets_closed. Qed.

(** X9: [L3RawSocket.__init__] leaves [ins] unassigned exactly when one of
    its first three system calls ([socket], [setsockopt], [socket]) fails
    or [socket.htons(type)] raises; [close()] on that handle raises
    [AttributeError] and invokes [close()] on no channel, the open output
    socket included. *)
Theorem failed_constructor_is_not_closed type iface script fn fc :
  let h := L3RawSocket.obj
             (snd (L3RawSocket.__init__ type iface (L3RawSocket.fresh script))) in
  (SuperSocket.ins h = SuperSocket.Unbound <->
   (exists k e, (k < 3)%nat /\ script !! k = Some (Some e)) \/
   (exists e, L3RawSocket.htons type = Raise e)) /\
  (SuperSocket.ins h = SuperSocket.Unbound ->
   fst (SuperSocket.close (SuperSocket.World h fn fc [])) = Raise (AttributeError "ins") /\
   SuperSocket.close_calls (snd (SuperSocket.close (SuperSocket.World h fn fc []))) = []).
Proof.
  cbv zeta. unfold L3RawSocket.__init__.
  destruct (L3RawSocket.htons type) as [proto | eh] eqn:Hh;
    destruct script as [| [e1 |] [| [e2 |] [| [e3 |] [| [e4 |] rest]]]];
    destruct iface as [i |];
    cbn; (split; [split |]); try discriminate.
  all: try (intros _; split; reflexivity).
  all: try (intros _; first [ right; eexists; reflexivity
                            | left; exists 0%nat; eexists; split; [lia | reflexivity]
                            | left; exists 1%nat; eexists; split; [lia | reflexivity]
                            | left; exists 2%nat; eexists; split; [lia | reflexivity] ]).
  all: intros [(k & e & Hk & Hl) | (e & He)]; try discriminate;
    destruct k as [| [| [| k]]]; cbn in Hl; try discriminate; lia.
Qed.

(** X10: when the first three system calls of [L3RawSocket.__init__]
    succeed (also when the [bind] that follows fails), the handle holds two
    sockets, and [close()], called once or more, invokes [close()] on the
    output socket, then on the input socket, once each. *)
Theorem built_handle_closes_both type iface script fn fc fd0 fd1 n :
  let h := L3RawSocket.obj
             (snd (L3RawSocket.__init__ type iface (L3RawSocket.fresh script))) in
  SuperSocket.ins h <> SuperSocket.Unbound ->
  fn 0%nat = Return fd0 -> fd0 <> -1 ->
  fn 1%nat = Return fd1 -> fd1 <> -1 ->
  h = SuperSocket.Handle false (SuperSocket.Ref 1) (SuperSocket.Ref 0) /\
  exists w',
    SuperSocket.close_times (S n) (SuperSocket.World h fn fc []) = (Return tt, w') /\
    SuperSocket.close_calls w' = [0%nat; 1%nat].
Proof.
  cbv zeta. intros Hins H0 Hfd0 H1 Hfd1.
  assert (Hh : L3RawSocket.obj
                 (snd (L3RawSocket.__init__ type iface (L3RawSocket.fresh script)))
               = SuperSocket.Handle false (SuperSocket.Ref 1) (SuperSocket.Ref 0)).
  { revert Hins. unfold L3RawSocket.__init__.
    destruct (L3RawSocket.htons type) as [proto | eh];
      destruct script as [| [e1 |] [| [e2 |] [| [e3 |] [| [e4 |] rest]]]];
      destruct iface as [i |]; cbn; intros Hins; try reflexivity; contradiction. }
  split; [exact Hh |]. rewrite Hh.
  destruct (close_once (SuperSocket.World
                          (SuperSocket.Handle false (SuperSocket.Ref 1) (SuperSocket.Ref 0))
                          fn fc []))
    as (w1 & Hrun & Hcalls & Hcl & _); [discriminate | discriminate | |].
  { split; cbn; intros ? [= <-]; eauto. }
  exists w1. cbn [SuperSocket.close_times].
  rewrite (bind_Return _ _ _ _ _ Hrun), (close_times_closed n w1 Hcl).
  split; [reflexivity |]. rewrite Hcalls. unfold closes_expected, live. cbn.
  rewrite H0, H1.
  destruct (Z.eqb_spec fd0 (-1)); [contradiction |].
  destruct (Z.eqb_spec fd1 (-1)); [contradiction |]. cbn.
  case_decide; [reflexivity |]. exfalso. intuition congruence.
Qed.

Lemma built_handle_closes_both_witness :
  exists w',
    SuperSocket.close_times 2
        (SuperSocket.World
           (L3RawSocket.obj
              (snd (L3RawSocket.__init__ (L3RawSocket.IntArg L3RawSocket.ETH_P_IP)
                      (Some "eth0"%string)
                      (L3RawSocket.fresh
                         [None; None; None;
                          Some (SocketError (19, "No such device"%string))]))))
           (fun _ => Return 5) (fun _ => Return (-1)) [])
      = (Return tt, w') /\
    SuperSocket.close_calls w' = [0%nat; 1%nat].
Proof.
  apply (built_handle_closes_both (L3RawSocket.IntArg L3RawSocket.ETH_P_IP)
           (Some "eth0"%string)
           [None; None; None; Some (SocketError (19, "No such device"%string))]
           (fun _ => Return 5) (fun _ => Return (-1)) 5 5 1);
    [discriminate | reflexivity | discriminate | reflexivity | discriminate].
Defined.



Lemma failed_constructor_is_not_closed_witness :
  fst (SuperSocket.close
         (SuperSocket.World
            (L3RawSocket.obj
               (snd (L3RawSocket.__init__ (L3RawSocket.IntArg (-1)) None
                       (L3RawSocket.fresh []))))
            (fun _ => Return 5) (fun _ => Return (-1)) []))
    = Raise (AttributeError "ins") /\
  SuperSocket.close_calls
    (snd (SuperSocket.close
            (SuperSocket.World
               (L3RawSocket.obj
                  (snd (L3RawSocket.__init__ (L3RawSocket.IntArg (-1)) None
                          (L3RawSocket.fresh []))))
               (fun _ => Return 5) (fun _ => Return (-1)) []))) = [].
Proof.
  apply (proj2 (failed_constructor_is_not_closed (L3RawSocket.IntArg (-1)) None []
                  (fun _ => Return 5) (fun _ => Return (-1)))).
  reflexivity.
Defined.

(** ** [SSLStreamSocket.recv] over several calls *)

Lemma sock_recv_one_segment x seg rest :
  seg <> [] -> len seg <= x ->
  sock_recv x NoFlags (Stream [] (seg :: rest)) = (Return seg, Stream [] rest).
Proof.
  intros Hne Hx. pose proof (len_nonneg seg) as H0. unfold sock_recv.
  destruct (Z.ltb_spec x 0) as [Hlt | _]; [lia |].
  unfold arrive. cbn [rxq inflight app].
  destruct seg as [| b0 seg]; [contradiction |].
  assert (Hlen : (length (b0 :: seg) <= Z.to_nat x)%nat) by (unfold len in Hx; lia).
  destruct rest; cbn [block_until_data rxq inflight];
    rewrite take_ge, drop_ge by exact Hlen; reflexivity.
Qed.

Lemma sock_recv_skip_empty x flags rest :
  0 <= x ->
  sock_recv x flags (Stream [] ([] :: rest)) = sock_recv x flags (Stream [] rest).
Proof.
  intros Hx. unfold sock_recv.
  destruct (Z.ltb_spec x 0) as [Hlt | _]; [lia |]. destruct rest; reflexivity.
Qed.

Lemma well_formed_truthy conf basecls f r q :
  well_formed conf basecls f ->
  dissect basecls (fwire f ++ r) = Return q ->
  truthy q = true.
Proof.
  intros (_ & Htr & _ & Hdec) Hq.
  destruct (Hdec r) as (pad & Hq' & _). rewrite Hq in Hq'. inversion Hq'; subst.
  destruct (fpkt f); [discriminate | reflexivity].
Qed.

Lemma wires_cons f fs : wires (f :: fs) = fwire f ++ wires fs.
Proof. reflexivity. Qed.

Section SSLInOrder.

Variables (conf : Conf) (basecls : PacketClass) (x : Z).

(** A read on an empty queue takes the first segment that holds a frame,
    whole. *)
Lemma ssl_read_whole_segment segs :
  Forall (fun f => fwire f <> []) (concat segs) ->
  concat segs <> [] ->
  Forall (fun seg => len (wires seg) <= x) segs ->
  exists s post,
    sock_recv x NoFlags (Stream [] (map wires segs))
      = (Return (wires s), Stream [] (map wires post)) /\
    s <> [] /\
    concat segs = s ++ concat post /\
    Forall (fun seg => len (wires seg) <= x) post.
Proof.
  induction segs as [| seg segs IH]; intros Hne Hcat Hx; [contradiction |].
  inversion Hx as [| ? ? Hseg Hrest]; subst.
  destruct seg as [| f0 seg].
  - cbn [concat app] in *. cbn [map]. change (wires []) with (@nil Byte.byte).
    destruct segs as [| seg' segs']; [contradiction |].
    assert (0 <= x).
    { inversion Hrest; subst. pose proof (len_nonneg (wires seg')). lia. }
    rewrite sock_recv_skip_empty by assumption.
    exact (IH Hne Hcat Hrest).
  - exists (f0 :: seg), segs. split; [| auto].
    cbn [map]. apply sock_recv_one_segment; [| exact Hseg].
    cbn [concat] in Hne. inversion Hne; subst. rewrite wires_cons.
    intros H. apply app_eq_nil in H as [H _]. contradiction.
Qed.

Lemma ssl_recv_frames fs : forall q0 segs log,
  fs = q0 ++ concat segs ->
  Forall (well_formed conf basecls) fs ->
  Forall (fun seg => len (wires seg) <= x) segs ->
  exists st',
    SSLStreamSocket.recv_times conf basecls x (length fs)
        (SSLStreamSocket.State (Stream [] (map wires segs)) (wires q0) log)
      = (Return (map fpkt fs), st') /\
    SSLStreamSocket._buf st' = [] /\
    pending (SSLStreamSocket.ins st') = [].
Proof.
  induction fs as [| f fs IH]; intros q0 segs log Hfs Hwf Hx.
  - symmetry in Hfs. apply app_eq_nil in Hfs as [-> Hs].
    eexists. split; [reflexivity |]. split; [reflexivity |].
    cbn. now apply concat_map_wires_nil.
  - inversion Hwf as [| ? ? Hwf_f Hwf_fs]; subst.
    pose proof (well_formed_nonempty conf basecls _ Hwf) as Hne.
    destruct q0 as [| f0 q0].
    + (* the buffer is empty: one read *)
      cbn [app] in Hfs.
      destruct (ssl_read_whole_segment segs) as (s & post & Hread & Hs & Hcat & Hpost).
      { now rewrite <- Hfs. }
      { rewrite <- Hfs. discriminate. }
      { exact Hx. }
      destruct s as [| f' s]; [contradiction |].
      rewrite Hcat in Hfs. cbn [app] in Hfs. inversion Hfs; subst f' fs.
      destruct (strip_well_formed conf basecls f (wires s) Hwf_f) as (q & Hq & Hstrip).
      pose proof (SSL_recv_read conf basecls x
                    (SSLStreamSocket.State (Stream [] (map wires segs)) (wires []) log)
                    (wires (f :: s)) (Stream [] (map wires post))) as Hrun.
      cbn [SSLStreamSocket._buf SSLStreamSocket.ins SSLStreamSocket.decoded] in Hrun.
      change (wires []) with (@nil Byte.byte) in *. cbn [app] in Hrun.
      rewrite wires_cons in Hrun. rewrite Hq, Hstrip in Hrun. cbn [fst snd] in Hrun.
      specialize (Hrun eq_refl Hread).
      assert (Hne_data : fwire f ++ wires s <> []).
      { intros H. apply app_eq_nil in H as [H _]. inversion Hne; subst. contradiction. }
      specialize (Hrun Hne_data).
      rewrite slice_from_drop in Hrun
        by (rewrite len_app; pose proof (len_nonneg (fwire f));
            pose proof (len_nonneg (wires s)); lia).
      unfold len in Hrun at 1. rewrite Nat2Z.id, drop_app_length in Hrun.
      match type of Hrun with
      | _ = (_, SSLStreamSocket.State _ _ ?lg) =>
          destruct (IH s post lg eq_refl Hwf_fs Hpost) as (st' & Hrest & Hbuf & Hpend)
      end.
      exists st'. split; [| split; assumption].
      cbn [SSLStreamSocket.recv_times length map].
      rewrite (bind_Return _ _ _ _ _ Hrun), (bind_Return _ _ _ _ _ Hrest). reflexivity.
    + (* the buffer holds a frame: no read *)
      cbn [app] in Hfs. inversion Hfs; subst f0 fs.
      destruct (strip_well_formed conf basecls f (wires q0) Hwf_f) as (q & Hq & Hstrip).
      pose proof (well_formed_truthy conf basecls f (wires q0) q Hwf_f Hq) as Htr.
      pose proof (SSL_recv_buffered conf basecls x
                    (SSLStreamSocket.State (Stream [] (map wires segs)) (wires (f :: q0)) log)
                    q) as Hrun.
      cbn [SSLStreamSocket._buf SSLStreamSocket.ins SSLStreamSocket.decoded] in Hrun.
      rewrite wires_cons in Hrun. rewrite Hstrip in Hrun. cbn [fst snd] in Hrun.
      assert (Hne_buf : fwire f ++ wires q0 <> []).
      { intros H. apply app_eq_nil in H as [H _]. inversion Hne; subst. contradiction. }
      specialize (Hrun Hne_buf Hq Htr).
      rewrite slice_from_drop in Hrun
        by (rewrite len_app; pose proof (len_nonneg (fwire f));
            pose proof (len_nonneg (wires q0)); lia).
      unfold len in Hrun at 1. rewrite Nat2Z.id, drop_app_length in Hrun.
      match type of Hrun with
      | _ = (_, SSLStreamSocket.State _ _ ?lg) =>
          destruct (IH q0 segs lg eq_refl Hwf_fs Hx) as (st' & Hrest & Hbuf & Hpend)
      end.
      exists st'. split; [| split; assumption].
      cbn [SSLStreamSocket.recv_times length map].
      rewrite (bind_Return _ _ _ _ _ Hrun), (bind_Return _ _ _ _ _ Hrest). reflexivity.
Qed.

(** X12: let frames that are well formed for the class arrive at an
    [SSLStreamSocket] in segments that each hold whole frames and fit in
    one read.  Then as many calls of [recv] as there are frames return the
    frames in order, several from one read when the segment holds several,
    and leave the buffer and the stream empty. *)
Theorem ssl_frames_in_order (segs : list (list frame)) log :
  Forall (well_formed conf basecls) (concat segs) ->
  Forall (fun seg => len (wires seg) <= x) segs ->
  exists st',
    SSLStreamSocket.recv_times conf basecls x (length (concat segs))
        (SSLStreamSocket.State (Stream [] (map wires segs)) [] log)
      = (Return (map fpkt (concat segs)), st') /\
    SSLStreamSocket._buf st' = [] /\
    pending (SSLStreamSocket.ins st') = [].
Proof.
  intros Hwf Hx.
  exact (ssl_recv_frames (concat segs) [] segs log eq_refl Hwf Hx).
Qed.

End SSLInOrder.

Lemma ssl_frames_in_order_witness :
  exists st',
    SSLStreamSocket.recv_times Sample.conf Sample.LenRecord 65535 3
        (SSLStreamSocket.State
           (Stream [] (map wires [[Sample.frameA; Sample.frameA]; [Sample.frameA]])) [] [])
      = (Return [fpkt Sample.frameA; fpkt Sample.frameA; fpkt Sample.frameA], st') /\
    SSLStreamSocket._buf st' = [] /\
    pending (SSLStreamSocket.ins st') = [].
Proof.
  apply (ssl_frames_in_order Sample.conf Sample.LenRecord 65535
           [[Sample.frameA; Sample.frameA]; [Sample.frameA]] []).
  - repeat (apply Forall_cons; split; [exact frameA_well_formed |]).
    apply Forall_nil_2.
  - repeat (apply Forall_cons; split; [vm_compute; discriminate |]).
    apply Forall_nil_2.
Defined.

(** X13: a record that straddles two reads.  When the first read brings a
    well-formed frame [A] and the beginning [B1] of the next one, on which
    the class gives no frame, and the second read brings the rest [B2], two
    calls of [SSLStreamSocket.recv] return [A] then [B] and leave the
    buffer and the stream empty. *)
Theorem ssl_straddling_record conf basecls x A B B1 B2 log :
  well_formed conf basecls A ->
  well_formed conf basecls B ->
  fwire B = B1 ++ B2 ->
  B1 <> [] -> B2 <> [] ->
  buffered_frame basecls B1 = false ->
  len (fwire A ++ B1) <= x ->
  len B2 <= x ->
  exists st',
    SSLStreamSocket.recv_times conf basecls x 2
        (SSLStreamSocket.State (Stream [] [fwire A ++ B1; B2]) [] log)
      = (Return [fpkt A; fpkt B], st') /\
    SSLStreamSocket._buf st' = [] /\
    pending (SSLStreamSocket.ins st') = [].
Proof.
  intros HA HB Hsplit HB1 HB2 Hpart Hx1 Hx2.
  assert (HneA : fwire A ++ B1 <> []).
  { intros H. apply app_eq_nil in H as [_ H]. contradiction. }
  (* first call: one read, [A] comes out, [B1] stays *)
  destruct (strip_well_formed conf basecls A B1 HA) as (qa & Hqa & Hstripa).
  pose proof (SSL_recv_read conf basecls x
                (SSLStreamSocket.State (Stream [] [fwire A ++ B1; B2]) [] log)
                (fwire A ++ B1) (Stream [] [B2]) eq_refl
                (sock_recv_one_segment x _ _ HneA Hx1) HneA) as Hrun1.
  cbn [SSLStreamSocket._buf SSLStreamSocket.ins SSLStreamSocket.decoded app] in Hrun1.
  cbv zeta in Hrun1. rewrite Hqa, Hstripa in Hrun1. cbn [fst snd] in Hrun1.
  rewrite slice_from_drop in Hrun1
    by (rewrite len_app; pose proof (len_nonneg (fwire A));
        pose proof (len_nonneg B1); lia).
  unfold len in Hrun1 at 1. rewrite Nat2Z.id, drop_app_length in Hrun1.
  (* second call: the guarded decode of [B1] gives nothing, one read *)
  destruct (strip_well_formed conf basecls B [] HB) as (qb & Hqb & Hstripb).
  rewrite app_nil_r in Hqb, Hstripb.
  match type of Hrun1 with
  | _ = (_, ?st1) =>
      pose proof (SSL_recv_read conf basecls x st1 B2 (Stream [] []) Hpart
                    (sock_recv_one_segment x _ _ HB2 Hx2) HB2) as Hrun2
  end.
  cbn [SSLStreamSocket._buf SSLStreamSocket.ins SSLStreamSocket.decoded] in Hrun2.
  cbv zeta in Hrun2. rewrite <- Hsplit, Hqb, Hstripb in Hrun2. cbn [fst snd] in Hrun2.
  rewrite slice_from_drop in Hrun2 by (pose proof (len_nonneg (fwire B)); lia).
  unfold len in Hrun2 at 1. rewrite Nat2Z.id, drop_all in Hrun2.
  eexists. split; [| split].
  - cbn [SSLStreamSocket.recv_times].
    rewrite (bind_Return _ _ _ _ _ Hrun1).
    unfold bind at 1. rewrite (bind_Return _ _ _ _ _ Hrun2). reflexivity.
  - reflexivity.
  - reflexivity.
Qed.

Lemma strict_frames_well_formed :
  well_formed Sample.conf Sample.StrictRecord Sample2.strictA /\
  well_formed Sample.conf Sample.StrictRecord Sample2.strictB.
Proof.
  split.
  all: split; [discriminate |]; split; [reflexivity |]; split; [reflexivity |].
  all: intros r; exists (Sample.trailing r); split; [reflexivity |].
  all: destruct r as [| b0 r]; simpl;
    [split; [reflexivity | now left]
    | rewrite app_nil_r; split; [reflexivity | right; eauto]].
Qed.

Lemma ssl_straddling_record_witness :
  exists st',
    SSLStreamSocket.recv_times Sample.conf Sample.StrictRecord 65535 2
        (SSLStreamSocket.State
           (Stream [] [fwire Sample2.strictA ++ [Sample.b 3; Sample.b 12];
                       [Sample.b 13; Sample.b 14]]) [] [])
      = (Return [fpkt Sample2.strictA; fpkt Sample2.strictB], st') /\
    SSLStreamSocket._buf st' = [] /\
    pending (SSLStreamSocket.ins st') = [].
Proof.
  apply (ssl_straddling_record Sample.conf Sample.StrictRecord 65535
           Sample2.strictA Sample2.strictB [Sample.b 3; Sample.b 12]
           [Sample.b 13; Sample.b 14] []).
  - exact (proj1 strict_frames_well_formed).
  - exact (proj2 strict_frames_well_formed).
  - reflexivity.
  - discriminate.
  - discriminate.
  - reflexivity.
  - vm_compute. discriminate.
  - vm_compute. discriminate.
Defined.

Lemma raise_not_buffered basecls s e :
  dissect basecls s = Raise e -> buffered_frame basecls s = false.
Proof.
  intros H. unfold buffered_frame. rewrite H. now destruct (decide (s <> [])).
Qed.

Lemma ssl_attempts_grow conf basecls x :
  0 <= x ->
  forall n segs buf log,
    Forall (fun seg => seg <> [] /\ len seg <= x) segs ->
    buffered_frame basecls buf = false ->
    (forall k, (1 <= k <= n)%nat ->
               exists e, dissect basecls (buf ++ concat (take k segs)) = Raise e) ->
    let st' := SSLStreamSocket.attempts conf basecls x n
                 (SSLStreamSocket.State (Stream [] segs) buf log) in
    SSLStreamSocket._buf st' = buf ++ concat (take n segs) /\
    SSLStreamSocket.ins st' = Stream [] (drop n segs).
Proof.
  intros Hx. induction n as [| n IH]; intros segs buf log Hsegs Hbf Hfail; cbv zeta.
  - cbn. rewrite app_nil_r. now rewrite drop_0.
  - cbn [SSLStreamSocket.attempts].
    destruct segs as [| seg rest].
    + assert (Hread : sock_recv x NoFlags (Stream [] []) = (Return [], Stream [] [])).
      { unfold sock_recv. destruct (Z.ltb_spec x 0) as [Hlt | _]; [lia |].
        cbn. now rewrite take_nil, drop_nil. }
      rewrite (SSL_recv_eof conf basecls x
                 (SSLStreamSocket.State (Stream [] []) buf log) (Stream [] []) Hbf Hread).
      cbn [snd SSLStreamSocket._buf SSLStreamSocket.ins SSLStreamSocket.decoded].
      match goal with
      | |- context [SSLStreamSocket.State _ _ ?lg] =>
          pose proof (IH [] buf lg Hsegs Hbf) as Hn
      end.
      cbv zeta in Hn. rewrite take_nil, drop_nil in Hn. cbn [take drop].
      apply Hn.
      intros k Hk. destruct (Hfail k ltac:(lia)) as [e He].
      exists e. now rewrite take_nil in *.
    + inversion Hsegs as [| ? ? [Hne Hlen] Hrest]; subst.
      destruct (Hfail 1%nat ltac:(lia)) as [e He].
      cbn [take concat] in He. rewrite app_nil_r in He.
      rewrite (SSL_recv_read conf basecls x
                 (SSLStreamSocket.State (Stream [] (seg :: rest)) buf log) seg
                 (Stream [] rest) Hbf (sock_recv_one_segment x seg rest Hne Hlen) Hne).
      cbv zeta. cbn [SSLStreamSocket._buf]. rewrite He. cbn [snd].
      cbn [take concat drop]. rewrite (app_assoc buf seg).
      apply (IH rest (buf ++ seg) _ Hrest (raise_not_buffered _ _ _ He)).
      intros k Hk. destruct (Hfail (S k) ltac:(lia)) as [e' He'].
      exists e'. cbn [take concat] in He'. now rewrite <- app_assoc.
Qed.

(** X14: nothing bounds the buffer of [SSLStreamSocket].  As long as the
    class raises on what has accumulated, a caller that catches the
    exception and calls again makes the buffer keep every byte read: after
    [n] calls it is the old buffer followed by the first [n] segments. *)
Theorem ssl_buffer_keeps_growing conf basecls x n segs buf log :
  0 <= x ->
  Forall (fun seg => seg <> [] /\ len seg <= x) segs ->
  buffered_frame basecls buf = false ->
  (forall k, (1 <= k <= n)%nat ->
             exists e, dissect basecls (buf ++ concat (take k segs)) = Raise e) ->
  SSLStreamSocket._buf
    (SSLStreamSocket.attempts conf basecls x n
       (SSLStreamSocket.State (Stream [] segs) buf log))
  = buf ++ concat (take n segs).
Proof.
  intros Hx Hsegs Hbf Hfail.
  exact (proj1 (ssl_attempts_grow conf basecls x Hx n segs buf log Hsegs Hbf Hfail)).
Qed.

Lemma ssl_buffer_keeps_growing_witness :
  SSLStreamSocket._buf
    (SSLStreamSocket.attempts Sample.conf Sample2.Refusing 65535 2
       (SSLStreamSocket.State (Stream [] [[Sample.b 1]; [Sample.b 2; Sample.b 3]])
                              [Sample.b 0] []))
  = [Sample.b 0] ++ concat (take 2 [[Sample.b 1]; [Sample.b 2; Sample.b 3]]).
Proof.
  apply (ssl_buffer_keeps_growing Sample.conf Sample2.Refusing 65535 2
           [[Sample.b 1]; [Sample.b 2; Sample.b 3]] [Sample.b 0] []).
  - lia.
  - repeat (apply Forall_cons; split; [split; [discriminate | vm_compute; discriminate] |]).
    apply Forall_nil_2.
  - reflexivity.
  - intros k _. exists (OtherError "struct.error"). reflexivity.
Defined.

(** ** [SuperSocket.__init__] then [close] *)

(** X15: a handle built by [SuperSocket.__init__] has one socket for both
    directions, and [close()], called once or more, invokes [close()] on it
    exactly once; when the [socket.socket] call of the constructor fails,
    neither attribute exists and [close()] raises [AttributeError]. *)
Theorem supersocket_init_then_close script fn fc fd n :
  fn 0%nat = Return fd -> fd <> -1 ->
  let built := Constructors.SuperSocket__init__ (L3RawSocket.fresh script) in
  let w := SuperSocket.World (L3RawSocket.obj (snd built)) fn fc [] in
  match fst built with
  | Return _ =>
      exists w', SuperSocket.close_times (S n) w = (Return tt, w') /\
                 SuperSocket.close_calls w' = [0%nat]
  | Raise _ =>
      fst (SuperSocket.close w) = Raise (AttributeError "ins")
  end.
Proof.
  intros Hfn Hfd. cbv zeta.
  destruct script as [| [e1 |] rest]; cbn [fst snd]; try reflexivity.
  all: cbn -[SuperSocket.close_times].
  all: destruct (close_once (SuperSocket.World
                               (SuperSocket.Handle false (SuperSocket.Ref 0)
                                                   (SuperSocket.Ref 0)) fn fc []))
         as (w1 & Hrun & Hcalls & Hcl & _);
    [discriminate | discriminate | split; cbn; intros ? [= <-]; eauto |].
  all: exists w1; cbn [SuperSocket.close_times];
    rewrite (bind_Return _ _ _ _ _ Hrun), (close_times_closed n w1 Hcl);
    split; [reflexivity |]; rewrite Hcalls; unfold closes_expected, live; cbn;
    rewrite Hfn; destruct (Z.eqb_spec fd (-1)); [contradiction |]; cbn;
    repeat case_decide; try reflexivity; exfalso; intuition congruence.
Qed.

Lemma supersocket_init_then_close_witness :
  exists w',
    SuperSocket.close_times 2
        (SuperSocket.World
           (L3RawSocket.obj
              (snd (Constructors.SuperSocket__init__ (L3RawSocket.fresh [None]))))
           (fun _ => Return 3) (fun _ => Return (-1)) [])
      = (Return tt, w') /\
    SuperSocket.close_calls w' = [0%nat].
Proof.
  apply (supersocket_init_then_close [None] (fun _ => Return 3) (fun _ => Return (-1)) 3 1);
    [reflexivity | discriminate].
Defined.

(** ** The arguments of [L2ListenTcpdump] *)

Lemma string_app_assoc (a b c : string) :
  String.append (String.append a b) c = String.append a (String.append b c).
Proof.
  induction a as [| ch a IH]; [reflexivity |].
  change (String ch (String.append (String.append a b) c)
          = String ch (String.append a (String.append b c))).
  now rewrite IH.
Qed.

(** X16: the arguments [L2ListenTcpdump.__init__] builds for [tcpdump].
    They always begin with [-w - -s 65535]; [nofilter] has the effect of an
    empty [conf.except_filter]; unless [nofilter], a non-empty
    [conf.except_filter] always ends up negated at the end of the last
    argument; and a filter that is the empty string is still passed on as
    an argument when there is nothing to combine it with. *)
Theorem tcpdump_args_shape iface promisc filter nofilter except_filter :
  (exists rest,
     L2ListenTcpdump.tcpdump_args iface promisc filter nofilter except_filter
     = ["-w"; "-"; "-s"; "65535"]%string ++ rest) /\
  L2ListenTcpdump.tcpdump_args iface promisc filter true except_filter
    = L2ListenTcpdump.tcpdump_args iface promisc filter false ""%string /\
  (nofilter = false -> except_filter <> ""%string ->
   exists init pre,
     L2ListenTcpdump.tcpdump_args iface promisc filter nofilter except_filter
     = init ++ [String.append pre
                  (String.append "not (" (String.append except_filter ")"))]) /\
  (filter = Some ""%string -> nofilter = true \/ except_filter = ""%string ->
   last (L2ListenTcpdump.tcpdump_args iface promisc filter nofilter except_filter)
   = Some ""%string).
Proof.
  split; [| split; [| split]].
  - unfold L2ListenTcpdump.tcpdump_args.
    destruct iface, (L2ListenTcpdump.not_promisc promisc),
      (L2ListenTcpdump.combined_filter filter nofilter except_filter);
      cbn; eexists; reflexivity.
  - reflexivity.
  - intros -> Hef. unfold L2ListenTcpdump.tcpdump_args, L2ListenTcpdump.combined_filter.
    destruct except_filter as [| ch ef]; [contradiction |].
    cbn [negb L2ListenTcpdump.nonempty].
    destruct filter as [[| fc f] |].
    + eexists _, ""%string. reflexivity.
    + eexists _, (String.append "(" (String.append (String fc f) ") and ")).
      f_equal. f_equal. rewrite !string_app_assoc. reflexivity.
    + eexists _, ""%string. reflexivity.
  - intros -> Hor. unfold L2ListenTcpdump.tcpdump_args, L2ListenTcpdump.combined_filter.
    assert (Hc : (if negb nofilter
                  then if L2ListenTcpdump.nonempty except_filter
                       then Some (String.append "not ("
                                    (String.append except_filter ")"))
                       else Some ""%string
                  else Some ""%string) = Some ""%string).
    { destruct Hor as [-> | ->]; [reflexivity | now destruct nofilter]. }
    cbn [L2ListenTcpdump.nonempty]. rewrite Hc.
    destruct iface, (L2ListenTcpdump.not_promisc promisc); reflexivity.
Qed.

Lemma tcpdump_args_shape_witness :
  L2ListenTcpdump.tcpdump_args (Some "eth0"%string) None (Some "tcp"%string) false
                               "port 22"%string
  = ["-w"; "-"; "-s"; "65535"; "-i"; "eth0"; "-p"]%string
      ++ [String.append "(tcp) and "
            (String.append "not (" (String.append "port 22" ")"))].
Proof.
  destruct (proj1 (proj2 (proj2 (tcpdump_args_shape (Some "eth0"%string) None
                                   (Some "tcp"%string) false "port 22"%string)))
              eq_refl)
    as (init & pre & H); [discriminate |].
  reflexivity.
Defined.
